(** * A shallow embedding of the CHIP-8 interpreter core (src/src/chip8.c,
    src/include/chip8.h) and proofs of its specified behaviour.

    Conventions of the embedding:
    - fixed-size C arrays are lists of the size the struct declares
      (memory 4096 bytes, display 64*32 pixels, 16 registers, 16 keys,
      16 stack slots); an array element is read with [!!] and written with
      [<[ i := v ]>];
    - [uint8_t] and [uint16_t] fields are [Z] values, and every assignment
      to them reduces modulo 256 or 65536, as C truncation does;
    - an access to [memory], [stack] or [keypad] outside the array is
      undefined behaviour in C; the embedding turns it into the fault
      [OutOfBounds], so a proof that a run returns [Ok] is a proof that no
      such access happens;
    - [unrecognisedOpcode] and the stack-overflow branch of [push] call
      [exit(EXIT_FAILURE)]; they are the faults [UnknownOpcode] and
      [StackOverflow];
    - [rand()] is an input of the step: the value it returns is the
      argument [rnd]. *)

From Stdlib Require Import ZArith Lia Bool.
From stdpp Require Import base list decidable.

Open Scope Z_scope.

(** ** chip8.h *)

Definition CHIP8_STACK_SIZE : Z := 16.
Definition CHIP8_MEMORY_SIZE : Z := 4096.

Definition FONT_DATA : list Z := [
  0xF0; 0x90; 0x90; 0x90; 0xF0;
  0x20; 0x60; 0x20; 0x20; 0x70;
  0xF0; 0x10; 0xF0; 0x80; 0xF0;
  0xF0; 0x10; 0xF0; 0x10; 0xF0;
  0x90; 0x90; 0xF0; 0x10; 0x10;
  0xF0; 0x80; 0xF0; 0x10; 0xF0;
  0xF0; 0x80; 0xF0; 0x90; 0xF0;
  0xF0; 0x10; 0x20; 0x40; 0x40;
  0xF0; 0x90; 0xF0; 0x90; 0xF0;
  0xF0; 0x90; 0xF0; 0x10; 0xF0;
  0xF0; 0x90; 0xF0; 0x90; 0x90;
  0xE0; 0x90; 0xE0; 0x90; 0xE0;
  0xF0; 0x80; 0x80; 0x80; 0xF0;
  0xE0; 0x90; 0x90; 0x90; 0xE0;
  0xF0; 0x80; 0xF0; 0x80; 0xF0;
  0xF0; 0x80; 0xF0; 0x80; 0x80].

(** [struct chip8] *)
Record chip8 := mkChip8 {
  opcode : Z;              (* uint16_t: current instruction *)
  index : Z;               (* uint16_t: index register *)
  pc : Z;                  (* uint16_t: program counter *)
  stack : list Z;          (* uint16_t[CHIP8_STACK_SIZE] *)
  sound : Z;               (* uint8_t: sound timer *)
  delay : Z;               (* uint8_t: delay timer *)
  sp : Z;                  (* uint8_t: stack pointer *)
  V : list Z;              (* uint8_t[16]: registers V0..VF *)
  keypad : list bool;      (* bool[16] *)
  memory : list Z;         (* uint8_t[CHIP8_MEMORY_SIZE] *)
  display : list bool      (* bool[64 * 32] *)
}.

(** Field assignments. *)
Definition set_opcode (s : chip8) (v : Z) : chip8 :=
  mkChip8 v (index s) (pc s) (stack s) (sound s) (delay s) (sp s) (V s)
    (keypad s) (memory s) (display s).
Definition set_index (s : chip8) (v : Z) : chip8 :=
  mkChip8 (opcode s) v (pc s) (stack s) (sound s) (delay s) (sp s) (V s)
    (keypad s) (memory s) (display s).
Definition set_pc (s : chip8) (v : Z) : chip8 :=
  mkChip8 (opcode s) (index s) v (stack s) (sound s) (delay s) (sp s) (V s)
    (keypad s) (memory s) (display s).
Definition set_stack (s : chip8) (v : list Z) : chip8 :=
  mkChip8 (opcode s) (index s) (pc s) v (sound s) (delay s) (sp s) (V s)
    (keypad s) (memory s) (display s).
Definition set_sound (s : chip8) (v : Z) : chip8 :=
  mkChip8 (opcode s) (index s) (pc s) (stack s) v (delay s) (sp s) (V s)
    (keypad s) (memory s) (display s).
Definition set_delay (s : chip8) (v : Z) : chip8 :=
  mkChip8 (opcode s) (index s) (pc s) (stack s) (sound s) v (sp s) (V s)
    (keypad s) (memory s) (display s).
Definition set_sp (s : chip8) (v : Z) : chip8 :=
  mkChip8 (opcode s) (index s) (pc s) (stack s) (sound s) (delay s) v (V s)
    (keypad s) (memory s) (display s).
Definition set_V (s : chip8) (v : list Z) : chip8 :=
  mkChip8 (opcode s) (index s) (pc s) (stack s) (sound s) (delay s) (sp s) v
    (keypad s) (memory s) (display s).
Definition set_memory (s : chip8) (v : list Z) : chip8 :=
  mkChip8 (opcode s) (index s) (pc s) (stack s) (sound s) (delay s) (sp s) (V s)
    (keypad s) v (display s).
Definition set_display (s : chip8) (v : list bool) : chip8 :=
  mkChip8 (opcode s) (index s) (pc s) (stack s) (sound s) (delay s) (sp s) (V s)
    (keypad s) (memory s) v.

(** The shape and the value ranges the C types give a [struct chip8]. *)
Definition wf (s : chip8) : Prop :=
  length (stack s) = 16%nat /\ length (V s) = 16%nat /\
  length (keypad s) = 16%nat /\ length (memory s) = 4096%nat /\
  length (display s) = 2048%nat /\
  0 <= opcode s < 65536 /\ 0 <= index s < 65536 /\ 0 <= pc s < 65536 /\
  0 <= sp s < 256 /\ 0 <= sound s < 256 /\ 0 <= delay s < 256 /\
  Forall (fun v => 0 <= v < 256) (V s) /\
  Forall (fun b => 0 <= b < 256) (memory s) /\
  Forall (fun a => 0 <= a < 65536) (stack s).

Global Instance wf_dec (s : chip8) : Decision (wf s).
Proof. unfold wf. apply _. Defined.

(** ** Faults and the error monad *)

Inductive fault :=
  | UnknownOpcode (op : Z)   (* unrecognisedOpcode: exit(EXIT_FAILURE) *)
  | StackOverflow            (* push: exit(EXIT_FAILURE) *)
  | OutOfBounds (i : Z).     (* array access outside its bounds *)

Inductive res (A : Type) :=
  | Ok (a : A)
  | Fault (e : fault).
Arguments Ok {A} a.
Arguments Fault {A} e.

Definition res_bind {A B} (m : res A) (k : A -> res B) : res B :=
  match m with Ok a => k a | Fault e => Fault e end.

Notation "'let*' x ':=' m 'in' k" := (res_bind m (fun x => k))
  (at level 200, x name, m at level 100, k at level 200).

(** ** Array accesses *)

(** [chip8->memory[a]] *)
Definition mem_read (s : chip8) (a : Z) : res Z :=
  match memory s !! Z.to_nat a with
  | Some b => Ok b
  | None => Fault (OutOfBounds a)
  end.

(** [chip8->memory[a] = v] *)
Definition mem_write (s : chip8) (a v : Z) : res chip8 :=
  match memory s !! Z.to_nat a with
  | Some _ => Ok (set_memory s (<[Z.to_nat a := v]> (memory s)))
  | None => Fault (OutOfBounds a)
  end.

(** [chip8->V[i]]: every register index is a nibble of the opcode, so it
    is below 16 and the default is never used. *)
Definition reg (s : chip8) (i : Z) : Z := default 0 (V s !! Z.to_nat i).

(** [chip8->V[i] = v] *)
Definition set_reg (s : chip8) (i v : Z) : chip8 :=
  set_V s (<[Z.to_nat i := v]> (V s)).

(** Opcode fields. *)
Definition op_X (op : Z) : Z := Z.shiftr (Z.land op 0x0F00) 8.
Definition op_Y (op : Z) : Z := Z.shiftr (Z.land op 0x00F0) 4.

(** ** Instruction helpers *)

Definition unrecognisedOpcode {A} (op : Z) : res A := Fault (UnknownOpcode op).

Definition jump (s : chip8) (NNN : Z) : chip8 := set_pc s NNN.

Definition push (s : chip8) : res chip8 :=
  if sp s >? CHIP8_STACK_SIZE - 1 then Fault StackOverflow
  else
    (* chip8->stack[chip8->sp++] = chip8->pc *)
    Ok (set_sp (set_stack s (<[Z.to_nat (sp s) := pc s]> (stack s)))
          ((sp s + 1) mod 256)).

Definition pop (s : chip8) : res chip8 :=
  if sp s =? 0 then Ok s
  else
    (* jump(chip8, chip8->stack[--chip8->sp]) *)
    let s1 := set_sp s ((sp s - 1) mod 256) in
    match stack s1 !! Z.to_nat (sp s1) with
    | Some a => Ok (jump s1 a)
    | None => Fault (OutOfBounds (sp s1))
    end.

Definition convert_binary_to_decimal_and_load (s : chip8) : res chip8 :=
  let value := reg s (op_X (opcode s)) in
  let ones := value mod 10 in
  let tens := value / 10 mod 10 in
  let hundreds := value / 100 mod 10 in
  let* s1 := mem_write s (index s + 0) hundreds in
  let* s2 := mem_write s1 (index s1 + 1) tens in
  mem_write s2 (index s2 + 2) ones.

(** ** Instructions *)

Definition nop (s : chip8) : res chip8 := unrecognisedOpcode (opcode s).

Definition x0 (s : chip8) : res chip8 :=
  if opcode s =? 0x00E0 then
    (* memset(chip8->display, 0, sizeof(chip8->display)) *)
    Ok (set_display s (replicate (length (display s)) false))
  else if opcode s =? 0x00EE then pop s
  else unrecognisedOpcode (opcode s).

Definition x1 (s : chip8) : res chip8 := Ok (jump s (Z.land (opcode s) 0x0FFF)).

Definition x2 (s : chip8) : res chip8 :=
  let* s1 := push s in
  Ok (jump s1 (Z.land (opcode s1) 0x0FFF)).

Definition x3 (s : chip8) : res chip8 :=
  let VX := reg s (op_X (opcode s)) in
  let NN := Z.land (opcode s) 0xFF in
  Ok (if VX =? NN then set_pc s ((pc s + 2) mod 65536) else s).

Definition x4 (s : chip8) : res chip8 :=
  let VX := reg s (op_X (opcode s)) in
  let NN := Z.land (opcode s) 0xFF in
  Ok (if negb (VX =? NN) then set_pc s ((pc s + 2) mod 65536) else s).

Definition x5 (s : chip8) : res chip8 :=
  let VX := reg s (Z.shiftr (Z.land (opcode s) 0x0F00) 8) in
  let VY := reg s (Z.shiftr (Z.land (opcode s) 0x00F0) 8) in
  Ok (if VX =? VY then set_pc s ((pc s + 2) mod 65536) else s).

Definition x6 (s : chip8) : res chip8 :=
  Ok (set_reg s (op_X (opcode s)) (Z.land (opcode s) 0x00FF)).

Definition x7 (s : chip8) : res chip8 :=
  let X := op_X (opcode s) in
  Ok (set_reg s X ((reg s X + Z.land (opcode s) 0x00FF) mod 256)).

Definition x8ShiftQuirk : bool := false.

Definition x8 (s : chip8) : res chip8 :=
  let code := Z.land (opcode s) 0x000F in
  let X := op_X (opcode s) in
  let VY := reg s (Z.shiftr (Z.land (opcode s) 0x00F0) 4) in
  if code =? 0x0 then Ok (set_reg s X VY)
  else if code =? 0x1 then Ok (set_reg s X (Z.lor (reg s X) VY))
  else if code =? 0x2 then Ok (set_reg s X (Z.land (reg s X) VY))
  else if code =? 0x3 then Ok (set_reg s X (Z.lxor (reg s X) VY))
  else if code =? 0x4 then
    let overflow := reg s X + VY >? 0xFF in
    let s1 := set_reg s X ((reg s X + VY) mod 256) in
    Ok (set_reg s1 0xF (Z.b2z overflow))
  else if code =? 0x5 then
    let underflow := VY >? reg s X in
    let s1 := set_reg s X ((reg s X - VY) mod 256) in
    Ok (set_reg s1 0xF (if underflow then 0x0 else 0x1))
  else if code =? 0x6 then
    let s0 := if x8ShiftQuirk then set_reg s X VY else s in
    let dropped_bit := Z.land (reg s0 X) 0x1 in
    let s1 := set_reg s0 X (Z.shiftr (reg s0 X) 1) in
    Ok (set_reg s1 0xF dropped_bit)
  else if code =? 0x7 then
    let underflow := reg s X >? VY in
    let s1 := set_reg s X ((VY - reg s X) mod 256) in
    Ok (set_reg s1 0xF (if underflow then 0x0 else 0x1))
  else if code =? 0xE then
    let s0 := if x8ShiftQuirk then set_reg s X VY else s in
    let dropped_bit := Z.shiftr (reg s0 X) 7 in
    let s1 := set_reg s0 X (Z.shiftl (reg s0 X) 1 mod 256) in
    Ok (set_reg s1 0xF dropped_bit)
  else unrecognisedOpcode (opcode s).

Definition x9 (s : chip8) : res chip8 :=
  let VX := reg s (Z.shiftr (Z.land (opcode s) 0x0F00) 8) in
  let VY := reg s (Z.shiftr (Z.land (opcode s) 0x00F0) 4) in
  Ok (if negb (VX =? VY) then set_pc s ((pc s + 2) mod 65536) else s).

Definition xA (s : chip8) : res chip8 := Ok (set_index s (Z.land (opcode s) 0x0FFF)).

Definition xBJumpQuirk : bool := false.

Definition xB (s : chip8) : res chip8 :=
  let NNN := Z.land (opcode s) 0x0FFF in
  let NNN' := if xBJumpQuirk then (NNN + reg s (op_X (opcode s))) mod 65536
              else (NNN + reg s 0x0) mod 65536 in
  Ok (jump s NNN').

(** [rnd] is the value returned by [rand()]. *)
Definition xC (rnd : Z) (s : chip8) : res chip8 :=
  let NN := Z.land (opcode s) 0x00FF in
  Ok (set_reg s (op_X (opcode s)) (Z.land rnd NN)).

Definition xE (s : chip8) : res chip8 :=
  let VX := reg s (op_X (opcode s)) in
  match (keypad s !! Z.to_nat VX : option bool) with
  | None => Fault (OutOfBounds VX)
  | Some isKeyPressed =>
      let code := Z.land (opcode s) 0x00FF in
      if code =? 0x9E then
        Ok (if isKeyPressed then set_pc s ((pc s + 2) mod 65536) else s)
      else if code =? 0xA1 then
        Ok (if negb isKeyPressed then set_pc s ((pc s + 2) mod 65536) else s)
      else unrecognisedOpcode (opcode s)
  end.

(** DXYN. The pixel at column [col] of a sprite row, and the update of the
    display cell it falls on (one iteration of the inner loop body). *)
Definition sprite_pixel (pixelByte col : Z) : bool :=
  negb (Z.shiftr (Z.land pixelByte (Z.shiftr 0x80 col)) (7 - col) =? 0).

(** The display index [(X + col) + ((Y + row) * 64)]; the loop bounds keep
    it below [64 * 32]. *)
Definition display_pos (X Y row col : Z) : nat :=
  Z.to_nat ((X + col) + (Y + row) * 64).

Definition draw_pixel (X Y row col pixelByte : Z) (s : chip8) : chip8 :=
  let pixel := sprite_pixel pixelByte col in
  let p := display_pos X Y row col in
  let displayPixel := default false (display s !! p) in
  if pixel && displayPixel then
    set_reg (set_display s (<[p := false]> (display s))) 0xF 1
  else if pixel && negb displayPixel then
    set_display s (<[p := true]> (display s))
  else s.

(** [for (int col = 0; col < 8; col++)], [fuel] iterations left. *)
Fixpoint draw_cols (X Y row pixelByte col : Z) (fuel : nat) (s : chip8) : chip8 :=
  match fuel with
  | O => s
  | S fuel' =>
      if X + col >? 63 then s
      else draw_cols X Y row pixelByte (col + 1) fuel'
             (draw_pixel X Y row col pixelByte s)
  end.

(** [for (int row = 0; row < N; row++)], [fuel] iterations left. *)
Fixpoint draw_rows (X Y row : Z) (fuel : nat) (s : chip8) : res chip8 :=
  match fuel with
  | O => Ok s
  | S fuel' =>
      let* pixelByte := mem_read s (index s + row) in
      if Y + row >? 31 then Ok s
      else draw_rows X Y (row + 1) fuel' (draw_cols X Y row pixelByte 0 8 s)
  end.

Definition xD (s : chip8) : res chip8 :=
  let X := reg s (Z.shiftr (Z.land (opcode s) 0x0F00) 8) mod 64 in
  let Y := reg s (Z.shiftr (Z.land (opcode s) 0x00F0) 4) mod 32 in
  let N := Z.land (opcode s) 0x000F in
  let s0 := set_reg s 0xF 0 in
  draw_rows X Y 0 (Z.to_nat N) s0.

(** What [draw_pixel] does to the cell [p] when the sprite bit is set: the
    cell is flipped, and VF set to 1 if it was on. *)
Definition flip_cell (p : nat) (s : chip8) : chip8 :=
  if default false (display s !! p)
  then set_reg (set_display s (<[p := false]> (display s))) 0xF 1
  else set_display s (<[p := true]> (display s)).

(** The display cells [draw_cols] flips, in the order it flips them. *)
Fixpoint col_cells (X Y row pixelByte col : Z) (fuel : nat) : list nat :=
  match fuel with
  | O => []
  | S fuel' =>
      if X + col >? 63 then []
      else (if sprite_pixel pixelByte col then [display_pos X Y row col] else [])
             ++ col_cells X Y row pixelByte (col + 1) fuel'
  end.

(** The display cells [draw_rows] flips when it reads the sprite rows from
    [mem] at [idx + row], in the order it flips them. *)
Fixpoint row_cells (mem : list Z) (idx X Y row : Z) (fuel : nat) : list nat :=
  match fuel with
  | O => []
  | S fuel' =>
      match mem !! Z.to_nat (idx + row) with
      | None => []
      | Some pixelByte =>
          if Y + row >? 31 then []
          else col_cells X Y row pixelByte 0 8 ++ row_cells mem idx X Y (row + 1) fuel'
      end
  end.

(** The cells of [L] flipped one after the other. *)
Definition flips (L : list nat) (s : chip8) : chip8 :=
  fold_left (fun s p => flip_cell p s) L s.

Definition xFIndexQuirk : bool := false.

(** FX0A: [for (int i = 0; i < 0x10; i++) if (chip8->keypad[i]) ... break;]
    returns the first pressed key, if any. *)
Fixpoint find_key (kp : list bool) (i : Z) (fuel : nat) : option Z :=
  match fuel with
  | O => None
  | S fuel' =>
      if default false (kp !! Z.to_nat i) then Some i
      else find_key kp (i + 1) fuel'
  end.

(** FX55: [for (int i = 0; i <= X; i++) memory[initialIndex + i] = V[i]]. *)
Fixpoint store_registers (initialIndex i : Z) (fuel : nat) (s : chip8) : res chip8 :=
  match fuel with
  | O => Ok s
  | S fuel' =>
      let* s1 := mem_write s (initialIndex + i) (reg s i) in
      let s2 := if xFIndexQuirk then set_index s1 ((index s1 + 1) mod 65536) else s1 in
      store_registers initialIndex (i + 1) fuel' s2
  end.

(** FX65: [for (int i = 0; i <= X; i++) V[i] = memory[initialIndex + i]]. *)
Fixpoint load_registers (initialIndex i : Z) (fuel : nat) (s : chip8) : res chip8 :=
  match fuel with
  | O => Ok s
  | S fuel' =>
      let* b := mem_read s (initialIndex + i) in
      let s1 := set_reg s i b in
      let s2 := if xFIndexQuirk then set_index s1 ((index s1 + 1) mod 65536) else s1 in
      load_registers initialIndex (i + 1) fuel' s2
  end.

Definition xF (s : chip8) : res chip8 :=
  let code := Z.land (opcode s) 0x00FF in
  let X := Z.shiftr (Z.land (opcode s) 0x0F00) 8 in
  let VX := reg s X in
  let initialIndex := index s in
  if code =? 0x07 then Ok (set_reg s X (delay s))
  else if code =? 0x0A then
    match find_key (keypad s) 0 16 with
    | Some i => Ok (set_reg s X i)
    | None => Ok (set_pc s ((pc s - 2) mod 65536))
    end
  else if code =? 0x15 then Ok (set_delay s VX)
  else if code =? 0x18 then Ok (set_sound s VX)
  else if code =? 0x1E then
    let s1 := set_index s ((index s + VX) mod 65536) in
    Ok (set_reg s1 0xF (Z.b2z (index s1 >=? 0x1000)))
  else if code =? 0x29 then Ok (set_index s ((0 + VX * 5) mod 65536))
  else if code =? 0x33 then convert_binary_to_decimal_and_load s
  else if code =? 0x55 then store_registers initialIndex 0 (Z.to_nat (X + 1)) s
  else if code =? 0x65 then load_registers initialIndex 0 (Z.to_nat (X + 1)) s
  else unrecognisedOpcode (opcode s).

(** [static void ( *OPS[0x10])(struct chip8* )], indexed by the top nibble. *)
Definition OPS (rnd : Z) : list (chip8 -> res chip8) :=
  [x0; x1; x2; x3; x4; x5; x6; x7; x8; x9; xA; xB; xC rnd; xD; xE; xF].

(** ** Initialization, loading and the clock *)

Definition chip8_initialize : chip8 :=
  mkChip8 0 0 0x200 (replicate 16 0) 0 0 0 (replicate 16 0)
    (replicate 16 false)
    (FONT_DATA ++ replicate (4096 - length FONT_DATA) 0)
    (replicate (64 * 32) false).

(** [fread(&chip8->memory[a], ...)]: the bytes [bs] written from address [a]. *)
Fixpoint write_bytes (a : nat) (bs : list Z) (mem : list Z) : list Z :=
  match bs with
  | [] => mem
  | b :: bs' => write_bytes (S a) bs' (<[a := b]> mem)
  end.

(** [chip8_load_ROM]: the file at [path] is [rom_file], [None] when
    [fopen] fails; [ftell] at its end gives its length in bytes. *)
Definition chip8_load_ROM (s : chip8) (rom_file : option (list Z)) : bool * chip8 :=
  match rom_file with
  | None => (false, s)
  | Some bytes =>
      let romFileSize := Z.of_nat (length bytes) in
      if romFileSize =? -1 then (false, s)
      else if romFileSize >? CHIP8_MEMORY_SIZE - 512 then (false, s)
      else (true, set_memory s (write_bytes 0x200 bytes (memory s)))
  end.

(** The "Timers" block of [chip8_clock]. *)
Definition decrement_timers (s : chip8) : chip8 :=
  let s1 := if delay s >? 0 then set_delay s (delay s - 1) else s in
  if sound s1 >? 0 then set_sound s1 (sound s1 - 1) else s1.

(** What one "Timers" block makes of a timer value [d]. *)
Definition timer_dec (d : Z) : Z := if d >? 0 then d - 1 else d.

(** The fields only [chip8_clock] and FX15/FX18 write. *)
Definition tim (s : chip8) : Z * Z * Z := (opcode s, delay s, sound s).


Definition chip8_clock (rnd : Z) (s : chip8) : res chip8 :=
  (* Fetch *)
  let* hi := mem_read s (pc s) in
  let* lo := mem_read s (pc s + 1) in
  let s1 := set_opcode s (Z.lor (Z.shiftl hi 8) lo mod 65536) in
  let s2 := set_pc s1 ((pc s1 + 2) mod 65536) in
  (* Decode *)
  let importantNibble := Z.shiftr (Z.land (opcode s2) 0xF000) 12 in
  (* Execute *)
  let* s3 := nth (Z.to_nat importantNibble) (OPS rnd) nop s2 in
  (* Timers *)
  Ok (decrement_timers s3).

(** A run of call instructions 2NNN executed back to back, the NNN of the
    k-th one being the k-th element of [targets]. *)
Fixpoint nested_calls (targets : list Z) (s : chip8) : res chip8 :=
  match targets with
  | [] => Ok s
  | t :: ts => let* s1 := x2 (set_opcode s (0x2000 + t)) in nested_calls ts s1
  end.

(** [chip8_clock] called once per element of [rnds], the element being the
    value [rand()] returns during that step. *)
Fixpoint chip8_run (rnds : list Z) (s : chip8) : res chip8 :=
  match rnds with
  | [] => Ok s
  | r :: rs => let* s1 := chip8_clock r s in chip8_run rs s1
  end.

(** ** Concrete machine states used as witnesses and counterexamples,
    all built from the state [chip8_initialize] produces. *)

(** [bs] written into memory from address [a]. *)
Definition with_program (a : nat) (bs : list Z) (s : chip8) : chip8 :=
  set_memory s (write_bytes a bs (memory s)).

(** 8124 with V1 = 200, V2 = 100. *)
Definition ex_add : chip8 :=
  set_opcode (set_reg (set_reg chip8_initialize 1 200) 2 100) 0x8124.

(** 8127 with V1 = 9, V2 = 4. *)
Definition ex_subn : chip8 :=
  set_opcode (set_reg (set_reg chip8_initialize 1 9) 2 4) 0x8127.

(** 5120 (skip if V1 = V2) with V1 = V2 = 5 and V0 = 0, after its fetch. *)
Definition ex_skip_eq : chip8 :=
  set_pc (set_opcode (set_reg (set_reg chip8_initialize 1 5) 2 5) 0x5120) 0x202.

(** D012 (two-row sprite at V0, V1) with index 0xFFF. *)
Definition ex_draw_top : chip8 :=
  set_opcode (set_index chip8_initialize 0xFFF) 0xD012.

(** DF01 (one-row sprite at VF, V0) with VF = 8 and index 0 (font byte 0xF0). *)
Definition ex_draw_vf : chip8 :=
  set_opcode (set_reg (set_index chip8_initialize 0) 0xF 8) 0xDF01.

(** D125 (the glyph "0" at V1 = 10, V2 = 3) with index 0. *)
Definition ex_draw : chip8 :=
  set_opcode (set_reg (set_reg (set_index chip8_initialize 0) 1 10) 2 3) 0xD125.

(** F015 (delay := V0) at 0x200, V0 = 5, delay timer 0. *)
Definition ex_set_delay : chip8 :=
  with_program 0x200 [0xF0; 0x15] (set_reg chip8_initialize 0 5).

(** F30A (await key into V3) at 0x200; [keys] is the keypad. *)
Definition ex_await (keys : list bool) : chip8 :=
  let s := with_program 0x200 [0xF3; 0x0A] chip8_initialize in
  mkChip8 (opcode s) (index s) (pc s) (stack s) (sound s) (delay s) (sp s)
    (V s) keys (memory s) (display s).

(** 2300 (call 0x300) at 0x200 and 00EE (return) at 0x300. *)
Definition ex_call_ret : chip8 :=
  with_program 0x300 [0x00; 0xEE] (with_program 0x200 [0x23; 0x00] chip8_initialize).

(** * Proofs *)

(** ** Opcode fields *)

Lemma op_X_spec (op : Z) : op_X op = op / 256 mod 16.
Proof.
  unfold op_X. rewrite Z.shiftr_land.
  change (Z.shiftr 0x0F00 8) with (Z.ones 4).
  rewrite Z.land_ones by lia. rewrite Z.shiftr_div_pow2 by lia. reflexivity.
Qed.

Lemma op_Y_spec (op : Z) : op_Y op = op / 16 mod 16.
Proof.
  unfold op_Y. rewrite Z.shiftr_land.
  change (Z.shiftr 0x00F0 4) with (Z.ones 4).
  rewrite Z.land_ones by lia. rewrite Z.shiftr_div_pow2 by lia. reflexivity.
Qed.

Lemma op_X_range (op : Z) : 0 <= op_X op < 16.
Proof. rewrite op_X_spec. apply Z.mod_pos_bound. lia. Qed.

Lemma op_Y_range (op : Z) : 0 <= op_Y op < 16.
Proof. rewrite op_Y_spec. apply Z.mod_pos_bound. lia. Qed.

(** The Y field as [x5] extracts it, [(opcode & 0x00F0) >> 8], is always 0. *)
Lemma x5_Y_field (op : Z) : Z.shiftr (Z.land op 0x00F0) 8 = 0.
Proof.
  rewrite Z.shiftr_land. change (Z.shiftr 0x00F0 8) with 0. apply Z.land_0_r.
Qed.

(** ** Registers *)

Section Registers.
Variable s : chip8.
Hypothesis Hlen : length (V s) = 16%nat.

Lemma reg_set_reg_eq (i v : Z) : 0 <= i < 16 -> reg (set_reg s i v) i = v.
Proof.
  intros Hi. unfold reg, set_reg, set_V; simpl.
  rewrite list_lookup_insert_eq by lia. reflexivity.
Qed.

Lemma reg_set_reg_ne (i j v : Z) :
  0 <= i -> 0 <= j -> i <> j -> reg (set_reg s i v) j = reg s j.
Proof.
  intros Hi Hj Hij. unfold reg, set_reg, set_V; simpl.
  rewrite list_lookup_insert_ne by lia. reflexivity.
Qed.
End Registers.

Lemma length_V_set_reg (s : chip8) (i v : Z) :
  length (V (set_reg s i v)) = length (V s).
Proof. apply length_insert. Qed.

Lemma wf_length_V (s : chip8) : wf s -> length (V s) = 16%nat.
Proof. intros H. apply H. Qed.

(** Rewrites a register read after register writes, given the length of
    the register file. *)
Ltac reg_simpl Hlen :=
  repeat first
    [ rewrite reg_set_reg_eq by (rewrite ?length_V_set_reg; first [exact Hlen | lia])
    | rewrite reg_set_reg_ne by (rewrite ?length_V_set_reg; first [exact Hlen | lia]) ].

(** ** 8XY4 and 8XY7 *)

(** C3: reg-ADD (8XY4) stores [(a + b) mod 256] in VX and sets VF to 1 iff
    [a + b > 255], else 0, where [a] and [b] are the pre-instruction values
    of VX and VY. VF is written last: when X = 0xF the operand [a] is the
    old VF and the final VF is the carry. No other register changes. *)
Theorem x8_add_carry (s : chip8) :
  wf s -> Z.land (opcode s) 0x000F = 4 ->
  let X := op_X (opcode s) in
  let a := reg s X in
  let b := reg s (op_Y (opcode s)) in
  exists s', x8 s = Ok s' /\
    reg s' 0xF = (if a + b >? 255 then 1 else 0) /\
    (X <> 0xF -> reg s' X = (a + b) mod 256) /\
    (forall i, 0 <= i -> i <> X -> i <> 0xF -> reg s' i = reg s i).
Proof.
  intros Hwf Hcode X a b.
  pose proof (wf_length_V s Hwf) as Hlen.
  pose proof (op_X_range (opcode s)) as HX.
  unfold x8. rewrite Hcode. eexists. split; [reflexivity |].
  unfold b, op_Y in *. fold X a. split; [| split].
  - reg_simpl Hlen. destruct (_ >? 255); reflexivity.
  - intros HXF. reg_simpl Hlen. reflexivity.
  - intros i Hi HiX HiF. reg_simpl Hlen. reflexivity.
Qed.

(** C10: SUBN (8XY7) stores [(VY - VX) mod 256] in VX and sets VF to 1 iff
    [VY >= VX] (so VF = 1 when VX = VY), else 0; VF is written after the
    result, so when X = 0xF the final VF is the flag. *)
Theorem x8_subn_borrow (s : chip8) :
  wf s -> Z.land (opcode s) 0x000F = 7 ->
  let X := op_X (opcode s) in
  let a := reg s X in
  let b := reg s (op_Y (opcode s)) in
  exists s', x8 s = Ok s' /\
    reg s' 0xF = (if b >=? a then 1 else 0) /\
    (X <> 0xF -> reg s' X = (b - a) mod 256) /\
    (forall i, 0 <= i -> i <> X -> i <> 0xF -> reg s' i = reg s i).
Proof.
  intros Hwf Hcode X a b.
  pose proof (wf_length_V s Hwf) as Hlen.
  pose proof (op_X_range (opcode s)) as HX.
  unfold x8. rewrite Hcode. eexists. split; [reflexivity |].
  unfold b, op_Y in *. fold X a. split; [| split].
  - reg_simpl Hlen. destruct (Z.gtb_spec a (reg s (Z.shiftr (Z.land (opcode s) 240) 4))),
      (Z.geb_spec (reg s (Z.shiftr (Z.land (opcode s) 240) 4)) a); lia.
  - intros HXF. reg_simpl Hlen. reflexivity.
  - intros i Hi HiX HiF. reg_simpl Hlen. reflexivity.
Qed.

Lemma x8_add_carry_witness :
  let X := op_X (opcode ex_add) in
  let a := reg ex_add X in
  let b := reg ex_add (op_Y (opcode ex_add)) in
  exists s', x8 ex_add = Ok s' /\
    reg s' 0xF = (if a + b >? 255 then 1 else 0) /\
    (X <> 0xF -> reg s' X = (a + b) mod 256) /\
    (forall i, 0 <= i -> i <> X -> i <> 0xF -> reg s' i = reg ex_add i).
Proof.
  apply (x8_add_carry ex_add).
  - apply (bool_decide_unpack _). vm_compute. reflexivity.
  - reflexivity.
Defined.

Lemma x8_subn_borrow_witness :
  let X := op_X (opcode ex_subn) in
  let a := reg ex_subn X in
  let b := reg ex_subn (op_Y (opcode ex_subn)) in
  exists s', x8 ex_subn = Ok s' /\
    reg s' 0xF = (if b >=? a then 1 else 0) /\
    (X <> 0xF -> reg s' X = (b - a) mod 256) /\
    (forall i, 0 <= i -> i <> X -> i <> 0xF -> reg s' i = reg ex_subn i).
Proof.
  apply (x8_subn_borrow ex_subn).
  - apply (bool_decide_unpack _). vm_compute. reflexivity.
  - reflexivity.
Defined.

(** ** 5XY0 and 9XY0 *)

(** [x5] extracts Y as [(opcode & 0x00F0) >> 8], which is 0: it compares
    VX with V0, whatever Y the opcode names. *)
Lemma x5_compares_V0 (s : chip8) :
  x5 s = Ok (if reg s (op_X (opcode s)) =? reg s 0
             then set_pc s ((pc s + 2) mod 65536) else s).
Proof. unfold x5. rewrite x5_Y_field. reflexivity. Qed.

(** [x9] extracts Y as [(opcode & 0x00F0) >> 4]. *)
Lemma x9_compares_VY (s : chip8) :
  x9 s = Ok (if negb (reg s (op_X (opcode s)) =? reg s (op_Y (opcode s)))
             then set_pc s ((pc s + 2) mod 65536) else s).
Proof. reflexivity. Qed.

(** C1 (failing input): 5120 with V1 = V2 = 5 and V0 = 0. VX equals VY, so
    skip-eq-reg should add 2 to pc; [x5] compares V1 with V0 instead and
    leaves the state, pc included, unchanged. *)
Theorem x5_skip_eq_failing_input :
  op_X (opcode ex_skip_eq) = 1 /\ op_Y (opcode ex_skip_eq) = 2 /\
  reg ex_skip_eq 1 = reg ex_skip_eq 2 /\
  x5 ex_skip_eq = Ok ex_skip_eq /\ pc ex_skip_eq = 0x202.
Proof. vm_compute. repeat split. Qed.

(** ** Program load *)

Section WriteBytes.
Local Open Scope nat_scope.

Lemma length_write_bytes (a : nat) (bs mem : list Z) :
  length (write_bytes a bs mem) = length mem.
Proof.
  revert a mem. induction bs as [|b bs IH]; intros a mem; simpl.
  - reflexivity.
  - rewrite IH. apply length_insert.
Qed.

Lemma lookup_write_bytes (a : nat) (bs mem : list Z) (i : nat) :
  a + length bs <= length mem ->
  write_bytes a bs mem !! i =
    if decide (a <= i < a + length bs) then bs !! (i - a) else mem !! i.
Proof.
  revert a mem. induction bs as [|b bs IH]; intros a mem Hlen; simpl in *.
  - destruct (decide _); [lia | reflexivity].
  - rewrite IH by (rewrite length_insert; lia).
    destruct (decide (S a <= i < S a + length bs)),
             (decide (a <= i < a + S (length bs))); try lia.
    + replace (i - a) with (S (i - S a)) by lia. reflexivity.
    + destruct (decide (i = a)) as [->|Hne].
      * rewrite list_lookup_insert_eq by lia.
        rewrite Nat.sub_diag. reflexivity.
      * lia.
    + rewrite list_lookup_insert_ne by lia. reflexivity.
Qed.
End WriteBytes.

(** C7: a ROM longer than [CHIP8_MEMORY_SIZE - 0x200] bytes is rejected
    ([false]) and the state, memory included, is left as it was; a ROM of at
    most that length is accepted ([true]), copied byte for byte to memory
    from address 0x200, every other memory byte and every other field being
    left as it was. *)
Theorem chip8_load_ROM_spec (s : chip8) (rom : list Z) :
  wf s ->
  (Z.of_nat (length rom) > CHIP8_MEMORY_SIZE - 0x200 ->
     chip8_load_ROM s (Some rom) = (false, s)) /\
  (Z.of_nat (length rom) <= CHIP8_MEMORY_SIZE - 0x200 ->
     exists s', chip8_load_ROM s (Some rom) = (true, s') /\
       s' = set_memory s (memory s') /\
       length (memory s') = 4096%nat /\
       forall i : nat, memory s' !! i =
         if decide (0x200 <= i < 0x200 + length rom)%nat
         then rom !! (i - 0x200)%nat else memory s !! i).
Proof.
  intros Hwf. pose proof (proj1 (proj2 (proj2 (proj2 Hwf)))) as Hmem.
  unfold chip8_load_ROM, CHIP8_MEMORY_SIZE.
  destruct (Z.eqb_spec (Z.of_nat (length rom)) (-1)); [lia |].
  split.
  - intros Hgt. destruct (Z.gtb_spec (Z.of_nat (length rom)) (4096 - 512));
      [reflexivity | lia].
  - intros Hle. destruct (Z.gtb_spec (Z.of_nat (length rom)) (4096 - 512)); [lia |].
    eexists. split; [reflexivity |]. simpl. split; [reflexivity |]. split.
    + rewrite length_write_bytes. exact Hmem.
    + intros i. apply lookup_write_bytes. lia.
Qed.

Lemma chip8_load_ROM_spec_witness :
  (Z.of_nat (length [0x6A; 0x02]) > CHIP8_MEMORY_SIZE - 0x200 ->
     chip8_load_ROM chip8_initialize (Some [0x6A; 0x02]) = (false, chip8_initialize)) /\
  (Z.of_nat (length [0x6A; 0x02]) <= CHIP8_MEMORY_SIZE - 0x200 ->
     exists s', chip8_load_ROM chip8_initialize (Some [0x6A; 0x02]) = (true, s') /\
       s' = set_memory chip8_initialize (memory s') /\
       length (memory s') = 4096%nat /\
       forall i : nat, memory s' !! i =
         if decide (0x200 <= i < 0x200 + length [0x6A; 0x02])%nat
         then [0x6A; 0x02] !! (i - 0x200)%nat else memory chip8_initialize !! i).
Proof.
  apply (chip8_load_ROM_spec chip8_initialize [0x6A; 0x02]).
  apply (bool_decide_unpack _). vm_compute. reflexivity.
Defined.

(** ** Call stack *)

Lemma land_0FFF (x : Z) : Z.land x 0x0FFF = x mod 4096.
Proof. change 0x0FFF with (Z.ones 12). apply Z.land_ones. lia. Qed.

Lemma nested_calls_ok (ts : list Z) (s : chip8) :
  length (stack s) = 16%nat -> 0 <= sp s -> sp s + Z.of_nat (length ts) <= 16 ->
  Forall (fun t => 0 <= t < 0x1000) ts ->
  exists s', nested_calls ts s = Ok s' /\
    sp s' = sp s + Z.of_nat (length ts) /\ length (stack s') = 16%nat /\
    forall i : nat, stack s' !! i =
      if decide (Z.to_nat (sp s) <= i < Z.to_nat (sp s) + length ts)%nat
      then (pc s :: ts) !! (i - Z.to_nat (sp s))%nat else stack s !! i.
Proof.
  revert s. induction ts as [|t ts IH]; intros s Hlen Hsp Hdepth Hts; simpl in *.
  - exists s. split; [reflexivity |]. split; [lia |]. split; [exact Hlen |].
    intros i. destruct (decide _); [lia | reflexivity].
  - inversion Hts as [|? ? Ht Hts0]; subst; clear Hts; rename Hts0 into Hts.
    unfold x2, push at 1, CHIP8_STACK_SIZE; simpl.
    destruct (Z.gtb_spec (sp s) (16 - 1)); [lia |]. simpl.
    set (s1 := jump _ _).
    assert (Hsp1 : sp s1 = sp s + 1) by (simpl; rewrite Z.mod_small; lia).
    assert (Hpc1 : pc s1 = t).
    { simpl. rewrite land_0FFF.
      replace (8192 + t) with (t + 2 * 4096) by lia.
      rewrite Z.mod_add by lia. apply Z.mod_small. lia. }
    assert (Hst1 : stack s1 = <[Z.to_nat (sp s) := pc s]> (stack s)) by reflexivity.
    destruct (IH s1) as (s' & Hrun & Hsp' & Hlen' & Hlook).
    { rewrite Hst1, length_insert. exact Hlen. }
    { lia. }
    { lia. }
    { exact Hts. }
    exists s'. split; [exact Hrun |]. split; [lia |]. split; [exact Hlen' |].
    intros i. rewrite Hlook, Hsp1, Hpc1, Hst1.
    replace (Z.to_nat (sp s + 1)) with (S (Z.to_nat (sp s))) by lia.
    destruct (decide (S (Z.to_nat (sp s)) <= i < S (Z.to_nat (sp s)) + length ts)%nat),
             (decide (Z.to_nat (sp s) <= i < Z.to_nat (sp s) + S (length ts))%nat);
      try lia.
    + replace (i - Z.to_nat (sp s))%nat with (S (i - S (Z.to_nat (sp s))))%nat by lia.
      reflexivity.
    + destruct (decide (i = Z.to_nat (sp s))) as [->|Hne]; [| lia].
      rewrite list_lookup_insert_eq by lia. rewrite Nat.sub_diag. reflexivity.
    + rewrite list_lookup_insert_ne by lia. reflexivity.
Qed.

(** C5: from an empty stack, 16 nested calls succeed, the k-th pushing the
    pc it was executed at (the state's pc for the first one, the previous
    call's target after that); a 17th call signals [StackOverflow]. A return
    (00EE) on an empty stack is a no-op: it leaves the state, pc included,
    unchanged, and is not a fault. *)
Theorem call_depth_16 (s : chip8) (targets : list Z) :
  wf s -> sp s = 0 -> length targets = 16%nat ->
  Forall (fun t => 0 <= t < 0x1000) targets ->
  (exists s', nested_calls targets s = Ok s' /\ sp s' = 16 /\
     (forall i : nat, (i < 16)%nat -> stack s' !! i = (pc s :: targets) !! i) /\
     (forall t, x2 (set_opcode s' (0x2000 + t)) = Fault StackOverflow)) /\
  x0 (set_opcode s 0x00EE) = Ok (set_opcode s 0x00EE).
Proof.
  intros Hwf Hsp Hn Hts. split.
  - destruct (nested_calls_ok targets s) as (s' & Hrun & Hsp' & _ & Hlook);
      try apply Hwf; try lia; try exact Hts.
    exists s'. split; [exact Hrun |]. split; [lia |]. split.
    + intros i Hi. rewrite Hlook, Hsp. simpl.
      destruct (decide _); [| lia]. rewrite Nat.sub_0_r. reflexivity.
    + intros t. unfold x2, push, CHIP8_STACK_SIZE. simpl.
      destruct (Z.gtb_spec (sp s') (16 - 1)); [reflexivity | lia].
  - unfold x0, pop. simpl. rewrite Hsp. reflexivity.
Qed.

Lemma call_depth_16_witness :
  let targets := [0x300; 0x310; 0x320; 0x330; 0x340; 0x350; 0x360; 0x370;
                  0x380; 0x390; 0x3A0; 0x3B0; 0x3C0; 0x3D0; 0x3E0; 0x3F0] in
  (exists s', nested_calls targets chip8_initialize = Ok s' /\ sp s' = 16 /\
     (forall i : nat, (i < 16)%nat -> stack s' !! i = (pc chip8_initialize :: targets) !! i) /\
     (forall t, x2 (set_opcode s' (0x2000 + t)) = Fault StackOverflow)) /\
  x0 (set_opcode chip8_initialize 0x00EE) = Ok (set_opcode chip8_initialize 0x00EE).
Proof.
  intros targets. apply (call_depth_16 chip8_initialize targets).
  - apply (bool_decide_unpack _). vm_compute. reflexivity.
  - reflexivity.
  - reflexivity.
  - apply (bool_decide_unpack _). vm_compute. reflexivity.
Defined.

(** ** Fetch *)

Lemma lor_shiftl_8 (hi lo : Z) :
  0 <= hi -> 0 <= lo < 256 -> Z.lor (Z.shiftl hi 8) lo = hi * 256 + lo.
Proof.
  intros Hhi Hlo.
  assert (Hdis : Z.land (Z.shiftl hi 8) lo = 0).
  { apply Z.bits_inj'. intros n Hn. rewrite Z.land_spec, Z.bits_0.
    destruct (Z.lt_ge_cases n 8) as [Hlt | Hge].
    - rewrite Z.shiftl_spec_low by lia. reflexivity.
    - assert (Hb : Z.testbit lo n = Z.testbit (lo / 2 ^ 8) (n - 8)).
      { rewrite Z.div_pow2_bits by lia. f_equal. lia. }
      rewrite Hb, Z.div_small by lia. rewrite Z.bits_0. apply andb_false_r. }
  rewrite <- Z.lxor_lor by exact Hdis.
  rewrite <- Z.add_nocarry_lxor by exact Hdis.
  rewrite Z.shiftl_mul_pow2 by lia. reflexivity.
Qed.

Lemma top_nibble_spec (op : Z) : Z.shiftr (Z.land op 0xF000) 12 = op / 4096 mod 16.
Proof.
  rewrite Z.shiftr_land. change (Z.shiftr 0xF000 12) with (Z.ones 4).
  rewrite Z.land_ones by lia. rewrite Z.shiftr_div_pow2 by lia. reflexivity.
Qed.

Lemma land_00FF (x : Z) : Z.land x 0x00FF = x mod 256.
Proof. change 0x00FF with (Z.ones 8). apply Z.land_ones. lia. Qed.

(** The fields of the opcode [hi * 256 + lo] fetched from bytes [hi], [lo]. *)
Section OpcodeBytes.
Variables hi lo : Z.
Hypothesis Hhi : 0 <= hi < 256.
Hypothesis Hlo : 0 <= lo < 256.

Lemma opcode_bytes_div256 : (hi * 256 + lo) / 256 = hi.
Proof. rewrite Z.div_add_l by lia. rewrite Z.div_small by lia. lia. Qed.

Lemma opcode_bytes_nibble : Z.shiftr (Z.land (hi * 256 + lo) 0xF000) 12 = hi / 16.
Proof.
  rewrite top_nibble_spec. change 4096 with (256 * 16).
  rewrite <- Z.div_div by lia. rewrite opcode_bytes_div256.
  apply Z.mod_small. split; [apply Z.div_pos | apply Z.div_lt_upper_bound]; lia.
Qed.

Lemma opcode_bytes_X : op_X (hi * 256 + lo) = hi mod 16.
Proof. rewrite op_X_spec, opcode_bytes_div256. reflexivity. Qed.

Lemma opcode_bytes_low : Z.land (hi * 256 + lo) 0x00FF = lo.
Proof.
  rewrite land_00FF, Z.add_comm, Z.mod_add by lia. apply Z.mod_small. lia.
Qed.

Lemma opcode_bytes_NNN : Z.land (hi * 256 + lo) 0x0FFF = (hi mod 16) * 256 + lo.
Proof.
  rewrite land_0FFF.
  rewrite (Z.div_mod hi 16) at 1 by lia.
  replace ((16 * (hi / 16) + hi mod 16) * 256 + lo)
    with ((hi mod 16) * 256 + lo + (hi / 16) * 4096) by lia.
  rewrite Z.mod_add by lia. apply Z.mod_small.
  pose proof (Z.mod_pos_bound hi 16). lia.
Qed.
End OpcodeBytes.

Lemma wf_mem_byte (s : chip8) (i : nat) (b : Z) :
  wf s -> memory s !! i = Some b -> 0 <= b < 256.
Proof.
  intros Hwf Hb. destruct Hwf as (_ & _ & _ & _ & _ & _ & _ & _ & _ & _ & _ & _ & Hm & _).
  exact (Forall_lookup_1 _ _ _ _ Hm Hb).
Qed.

(** One [chip8_clock] once the two opcode bytes at pc are known. *)
Lemma chip8_clock_fetch (rnd : Z) (s : chip8) (hi lo : Z) :
  memory s !! Z.to_nat (pc s) = Some hi ->
  memory s !! Z.to_nat (pc s + 1) = Some lo ->
  0 <= hi < 256 -> 0 <= lo < 256 ->
  chip8_clock rnd s =
    let* s3 := nth (Z.to_nat (hi / 16)) (OPS rnd) nop
                 (set_pc (set_opcode s (hi * 256 + lo)) ((pc s + 2) mod 65536)) in
    Ok (decrement_timers s3).
Proof.
  intros Hh Hl Hhi Hlo. unfold chip8_clock, mem_read. rewrite Hh, Hl. simpl.
  rewrite lor_shiftl_8 by lia. rewrite (Z.mod_small (hi * 256 + lo)) by lia.
  rewrite opcode_bytes_nibble by lia. reflexivity.
Qed.

(** ** Timers *)

Lemma decrement_timers_frame (s : chip8) :
  let s' := decrement_timers s in
  opcode s' = opcode s /\ index s' = index s /\ pc s' = pc s /\
  stack s' = stack s /\ sp s' = sp s /\ V s' = V s /\ keypad s' = keypad s /\
  memory s' = memory s /\ display s' = display s.
Proof.
  unfold decrement_timers.
  destruct (delay s >? 0); simpl; destruct (sound _ >? 0); simpl; repeat split.
Qed.

Lemma decrement_timers_delay (s : chip8) :
  delay (decrement_timers s) = if delay s >? 0 then delay s - 1 else delay s.
Proof.
  unfold decrement_timers.
  destruct (delay s >? 0); simpl; destruct (sound _ >? 0); reflexivity.
Qed.

Lemma decrement_timers_sound (s : chip8) :
  sound (decrement_timers s) = if sound s >? 0 then sound s - 1 else sound s.
Proof.
  unfold decrement_timers.
  destruct (delay s >? 0); simpl; destruct (sound _ >? 0); reflexivity.
Qed.

(** ** Call and return *)

(** C8: when the instruction at pc is a call 2NNN (bytes [hi], [lo]) that
    does not overflow the stack, and the instruction at NNN is a return
    00EE, the step executing the call jumps to NNN and the next step, the
    return, resumes at the pc the call had after its fetch, pc + 2. *)
Theorem call_return_resumes (s : chip8) (hi lo r1 r2 : Z) :
  wf s -> sp s < 16 ->
  memory s !! Z.to_nat (pc s) = Some hi ->
  memory s !! Z.to_nat (pc s + 1) = Some lo ->
  hi / 16 = 2 ->
  let NNN := (hi mod 16) * 256 + lo in
  memory s !! Z.to_nat NNN = Some 0x00 ->
  memory s !! Z.to_nat (NNN + 1) = Some 0xEE ->
  exists s1 s2, chip8_clock r1 s = Ok s1 /\ pc s1 = NNN /\
    chip8_clock r2 s1 = Ok s2 /\ pc s2 = (pc s + 2) mod 65536.
Proof.
  intros Hwf Hsp Hh Hl Hcall NNN Hr0 Hr1.
  pose proof (wf_mem_byte s _ _ Hwf Hh) as Hhi.
  pose proof (wf_mem_byte s _ _ Hwf Hl) as Hlo.
  pose proof Hwf as (Hst & _ & _ & _ & _ & _ & _ & Hpc & Hsp0 & _).
  rewrite (chip8_clock_fetch r1 s hi lo Hh Hl Hhi Hlo), Hcall. simpl nth.
  unfold x2, push, CHIP8_STACK_SIZE. simpl.
  destruct (Z.gtb_spec (sp s) (16 - 1)); [lia |]. simpl.
  set (s1 := decrement_timers _). exists s1.
  pose proof (decrement_timers_frame
    (jump (set_sp (set_stack (set_pc (set_opcode s (hi * 256 + lo)) ((pc s + 2) mod 65536))
       (<[Z.to_nat (sp s):=(pc s + 2) mod 65536]> (stack s))) ((sp s + 1) mod 256))
       (Z.land (hi * 256 + lo) 4095)))
    as (_ & _ & Hpc1 & Hst1 & Hsp1 & _ & _ & Hmem1 & _).
  fold s1 in Hpc1, Hst1, Hsp1, Hmem1. simpl in Hpc1, Hst1, Hsp1, Hmem1.
  rewrite opcode_bytes_NNN in Hpc1 by lia. fold NNN in Hpc1.
  assert (Hr0' : memory s1 !! Z.to_nat (pc s1) = Some 0x00) by congruence.
  assert (Hr1' : memory s1 !! Z.to_nat (pc s1 + 1) = Some 0xEE) by congruence.
  rewrite (chip8_clock_fetch r2 s1 0 0xEE Hr0' Hr1') by lia. simpl.
  unfold x0, pop. simpl.
  rewrite Hsp1, Z.mod_small by lia.
  destruct (Z.eqb_spec (sp s + 1) 0); [lia |]. simpl.
  replace (sp s + 1 - 1) with (sp s) by lia. rewrite Z.mod_small by lia.
  rewrite Hst1, list_lookup_insert_eq by lia. simpl.
  eexists. split; [reflexivity |]. split; [exact Hpc1 |].
  split; [reflexivity |].
  destruct (decrement_timers_frame
    (jump (set_sp (set_pc (set_opcode s1 (0 * 256 + 238)) ((pc s1 + 2) mod 65536)) (sp s))
       ((pc s + 2) mod 65536))) as (_ & _ & Hpc2 & _).
  exact Hpc2.
Qed.

Lemma call_return_resumes_witness :
  let NNN := (0x23 mod 16) * 256 + 0x00 in
  exists s1 s2, chip8_clock 0 ex_call_ret = Ok s1 /\ pc s1 = NNN /\
    chip8_clock 0 s1 = Ok s2 /\ pc s2 = (pc ex_call_ret + 2) mod 65536.
Proof.
  apply (call_return_resumes ex_call_ret 0x23 0x00 0 0).
  - apply (bool_decide_unpack _). vm_compute. reflexivity.
  - vm_compute. reflexivity.
  - vm_compute. reflexivity.
  - vm_compute. reflexivity.
  - reflexivity.
  - vm_compute. reflexivity.
  - vm_compute. reflexivity.
Defined.

(** ** Await key (FX0A) *)

Section FindKey.
Local Open Scope nat_scope.

Lemma find_key_spec (kp : list bool) (fuel i : nat) :
  match find_key kp (Z.of_nat i) fuel with
  | Some z => exists k0, z = Z.of_nat k0 /\ i <= k0 < i + fuel /\
                kp !! k0 = Some true /\
                forall j, i <= j < k0 -> kp !! j <> Some true
  | None => forall j, i <= j < i + fuel -> kp !! j <> Some true
  end.
Proof.
  revert i. induction fuel as [|fuel IH]; intros i; simpl.
  - intros j Hj. lia.
  - rewrite Nat2Z.id.
    destruct (kp !! i) as [b|] eqn:Hi; simpl.
    + destruct b.
      * exists i. split; [reflexivity |]. split; [lia |]. split; [exact Hi |].
        intros j Hj. lia.
      * specialize (IH (S i)). rewrite Nat2Z.inj_succ in IH.
        unfold Z.succ in IH. destruct (find_key kp (Z.of_nat i + 1) fuel).
        -- destruct IH as (k0 & -> & Hk & Hkt & Hlow). exists k0.
           split; [reflexivity |]. split; [lia |]. split; [exact Hkt |].
           intros j Hj. destruct (decide (j = i)) as [->|]; [congruence |].
           apply Hlow. lia.
        -- intros j Hj. destruct (decide (j = i)) as [->|]; [congruence |].
           apply IH. lia.
    + specialize (IH (S i)). rewrite Nat2Z.inj_succ in IH.
      unfold Z.succ in IH. destruct (find_key kp (Z.of_nat i + 1) fuel).
      * destruct IH as (k0 & -> & Hk & Hkt & Hlow). exists k0.
        split; [reflexivity |]. split; [lia |]. split; [exact Hkt |].
        intros j Hj. destruct (decide (j = i)) as [->|]; [congruence |].
        apply Hlow. lia.
      * intros j Hj. destruct (decide (j = i)) as [->|]; [congruence |].
        apply IH. lia.
Qed.
End FindKey.

Lemma find_key_none (kp : list bool) :
  Forall (fun k => k = false) kp -> find_key kp 0 16 = None.
Proof.
  intros Hall. pose proof (find_key_spec kp 16 0) as H.
  change (Z.of_nat 0) with 0 in H.
  destruct (find_key kp 0 16); [| reflexivity].
  destruct H as (k0 & _ & _ & Hk & _).
  pose proof (Forall_lookup_1 _ _ _ _ Hall Hk). discriminate.
Qed.

(** One step at an await-key instruction with no key pressed. *)
Lemma await_key_step_blocked (r : Z) (s : chip8) (hi : Z) :
  0 <= pc s < 65536 ->
  memory s !! Z.to_nat (pc s) = Some hi -> 0xF0 <= hi <= 0xFF ->
  memory s !! Z.to_nat (pc s + 1) = Some 0x0A ->
  Forall (fun k => k = false) (keypad s) ->
  exists s', chip8_clock r s = Ok s' /\ pc s' = pc s /\
    memory s' = memory s /\ keypad s' = keypad s.
Proof.
  intros Hpc Hh Hhi Hl Hkeys.
  rewrite (chip8_clock_fetch r s hi 0x0A Hh Hl) by lia.
  replace (hi / 16) with 15 by (apply Z.div_unique with (hi - 240); lia).
  simpl nth. unfold xF. simpl opcode.
  rewrite opcode_bytes_low by lia. simpl keypad.
  rewrite (find_key_none _ Hkeys). simpl.
  eexists. split; [reflexivity |].
  destruct (decrement_timers_frame
    (set_pc (set_pc (set_opcode s (hi * 256 + 10)) ((pc s + 2) mod 65536))
       (((pc s + 2) mod 65536 - 2) mod 65536)))
    as (_ & _ & Hpc' & _ & _ & _ & Hkp' & Hmem' & _).
  rewrite Hpc', Hkp', Hmem'. simpl. split; [| split; reflexivity].
  rewrite Zminus_mod_idemp_l. replace (pc s + 2 - 2) with (pc s) by lia.
  apply Z.mod_small. exact Hpc.
Qed.

Lemma await_key_run_blocked (rnds : list Z) (s : chip8) (hi : Z) :
  0 <= pc s < 65536 ->
  memory s !! Z.to_nat (pc s) = Some hi -> 0xF0 <= hi <= 0xFF ->
  memory s !! Z.to_nat (pc s + 1) = Some 0x0A ->
  Forall (fun k => k = false) (keypad s) ->
  exists s', chip8_run rnds s = Ok s' /\ pc s' = pc s.
Proof.
  revert s. induction rnds as [|r rs IH]; intros s Hpc Hh Hhi Hl Hkeys; simpl.
  - exists s. split; reflexivity.
  - destruct (await_key_step_blocked r s hi Hpc Hh Hhi Hl Hkeys)
      as (s1 & Hstep & Hpc1 & Hmem1 & Hkp1).
    rewrite Hstep. simpl.
    destruct (IH s1) as (s' & Hrun & Hpc'); try congruence.
    exists s'. split; [exact Hrun | congruence].
Qed.

(** C6: let pc address an await-key instruction FX0A (bytes [hi], 0x0A).
    While no key is pressed, any number of steps leaves pc where it is (the
    fetch advance is undone). On a step where some key is pressed, the
    instruction completes: pc advances by 2 and VX holds the lowest index
    of a pressed key. *)
Theorem await_key_spec (s : chip8) (hi : Z) :
  wf s ->
  memory s !! Z.to_nat (pc s) = Some hi -> 0xF0 <= hi <= 0xFF ->
  memory s !! Z.to_nat (pc s + 1) = Some 0x0A ->
  (Forall (fun k => k = false) (keypad s) ->
     forall rnds, exists s', chip8_run rnds s = Ok s' /\ pc s' = pc s) /\
  (forall k : nat, keypad s !! k = Some true ->
     forall r, exists s', chip8_clock r s = Ok s' /\
       pc s' = (pc s + 2) mod 65536 /\
       exists k0 : nat, reg s' (hi mod 16) = Z.of_nat k0 /\
         keypad s !! k0 = Some true /\
         forall j : nat, (j < k0)%nat -> keypad s !! j = Some false).
Proof.
  intros Hwf Hh Hhi Hl.
  pose proof Hwf as (_ & HlenV & Hlenk & _ & _ & _ & _ & Hpc & _).
  split.
  - intros Hkeys rnds. exact (await_key_run_blocked rnds s hi Hpc Hh Hhi Hl Hkeys).
  - intros k Hk r.
    pose proof (find_key_spec (keypad s) 16 0) as Hfind.
    change (Z.of_nat 0) with 0 in Hfind.
    destruct (find_key (keypad s) 0 16) as [z|] eqn:Hfk.
    2:{ exfalso. apply (Hfind k); [| exact Hk].
        pose proof (lookup_lt_Some _ _ _ Hk). lia. }
    destruct Hfind as (k0 & -> & Hk0 & Hk0t & Hlow).
    rewrite (chip8_clock_fetch r s hi 0x0A Hh Hl) by lia.
    replace (hi / 16) with 15 by (apply Z.div_unique with (hi - 240); lia).
    simpl nth. unfold xF. simpl opcode.
    rewrite opcode_bytes_low by lia. simpl keypad.
    change (Z.shiftr (Z.land (hi * 256 + 10) 0x0F00) 8) with (op_X (hi * 256 + 10)).
    rewrite opcode_bytes_X by lia. rewrite Hfk. simpl.
    eexists. split; [reflexivity |].
    destruct (decrement_timers_frame
      (set_reg (set_pc (set_opcode s (hi * 256 + 10)) ((pc s + 2) mod 65536))
         (hi mod 16) (Z.of_nat k0)))
      as (_ & _ & Hpc' & _ & _ & HV' & _).
    split; [rewrite Hpc'; reflexivity |].
    exists k0. split; [| split; [exact Hk0t |]].
    + unfold reg. rewrite HV'. simpl.
      rewrite list_lookup_insert_eq; [reflexivity |].
      pose proof (Z.mod_pos_bound hi 16). lia.
    + intros j Hj. specialize (Hlow j ltac:(lia)).
      destruct (keypad s !! j) as [[]|] eqn:Hkj; try congruence.
      apply lookup_ge_None in Hkj. lia.
Qed.

Lemma await_key_spec_witness :
  (Forall (fun k => k = false) (keypad (ex_await (replicate 16 false))) ->
     forall rnds, exists s', chip8_run rnds (ex_await (replicate 16 false)) = Ok s' /\
       pc s' = pc (ex_await (replicate 16 false))) /\
  (forall k : nat, keypad (ex_await (replicate 16 false)) !! k = Some true ->
     forall r, exists s', chip8_clock r (ex_await (replicate 16 false)) = Ok s' /\
       pc s' = (pc (ex_await (replicate 16 false)) + 2) mod 65536 /\
       exists k0 : nat, reg s' (0xF3 mod 16) = Z.of_nat k0 /\
         keypad (ex_await (replicate 16 false)) !! k0 = Some true /\
         forall j : nat, (j < k0)%nat -> keypad (ex_await (replicate 16 false)) !! j = Some false).
Proof.
  apply (await_key_spec (ex_await (replicate 16 false)) 0xF3).
  - apply (bool_decide_unpack _). vm_compute. reflexivity.
  - vm_compute. reflexivity.
  - lia.
  - vm_compute. reflexivity.
Defined.

(** ** What the instructions leave untouched: opcode and timers *)

(** Inverts a hypothesis [m = Ok s'] down to the writes it is made of. *)
Ltac ok_inv H :=
  repeat (cbn [res_bind] in H;
    match type of H with
    | Ok _ = Ok _ => injection H as <-
    | Fault _ = Ok _ => discriminate H
    | unrecognisedOpcode _ = Ok _ => discriminate H
    | res_bind ?m _ = Ok _ =>
        let E := fresh "E" in destruct m as [?|?] eqn:E; [|discriminate H]
    | (if ?c then _ else _) = Ok _ => destruct c
    | (match ?x with _ => _ end) = Ok _ => destruct x
    end).

(** Closes [tim (if .. then .. else ..) = tim s] and the like. *)
Ltac if_done :=
  repeat match goal with |- context [if ?c then _ else _] => destruct c end;
  reflexivity.

Lemma mem_write_tim (s s' : chip8) (a v : Z) : mem_write s a v = Ok s' -> tim s' = tim s.
Proof. unfold mem_write. intros H. ok_inv H. reflexivity. Qed.

Lemma draw_pixel_tim (X Y row col b : Z) (s : chip8) :
  tim (draw_pixel X Y row col b s) = tim s.
Proof.
  unfold draw_pixel. destruct (_ && _); [reflexivity |].
  destruct (_ && _); reflexivity.
Qed.

Lemma draw_cols_tim (X Y row b col : Z) (fuel : nat) (s : chip8) :
  tim (draw_cols X Y row b col fuel s) = tim s.
Proof.
  revert col s. induction fuel as [|fuel IH]; intros col s; simpl; [reflexivity |].
  destruct (X + col >? 63); [reflexivity |]. rewrite IH. apply draw_pixel_tim.
Qed.

Lemma draw_rows_tim (X Y row : Z) (fuel : nat) (s s' : chip8) :
  draw_rows X Y row fuel s = Ok s' -> tim s' = tim s.
Proof.
  revert row s. induction fuel as [|fuel IH]; intros row s H; cbn [draw_rows] in H.
  - injection H as <-. reflexivity.
  - unfold mem_read in H. ok_inv H; try reflexivity.
    rewrite (IH _ _ H). apply draw_cols_tim.
Qed.

Lemma store_registers_tim (ii i : Z) (fuel : nat) (s s' : chip8) :
  store_registers ii i fuel s = Ok s' -> tim s' = tim s.
Proof.
  revert i s. induction fuel as [|fuel IH]; intros i s H; simpl in H.
  - injection H as <-. reflexivity.
  - ok_inv H. rewrite (IH _ _ H). exact (mem_write_tim _ _ _ _ E).
Qed.

Lemma load_registers_tim (ii i : Z) (fuel : nat) (s s' : chip8) :
  load_registers ii i fuel s = Ok s' -> tim s' = tim s.
Proof.
  revert i s. induction fuel as [|fuel IH]; intros i s H; simpl in H.
  - injection H as <-. reflexivity.
  - unfold mem_read in H. ok_inv H. rewrite (IH _ _ H). reflexivity.
Qed.

Lemma convert_tim (s s' : chip8) :
  convert_binary_to_decimal_and_load s = Ok s' -> tim s' = tim s.
Proof.
  unfold convert_binary_to_decimal_and_load. intros H. ok_inv H.
  rewrite (mem_write_tim _ _ _ _ H), (mem_write_tim _ _ _ _ E0).
  exact (mem_write_tim _ _ _ _ E).
Qed.

(** Every instruction keeps the opcode; only FX15 writes the delay timer and
    only FX18 the sound timer, both with VX. *)
Lemma OPS_tim (rnd : Z) (n : nat) (s s' : chip8) :
  (n < 16)%nat -> nth n (OPS rnd) nop s = Ok s' ->
  let op := opcode s in
  let fx (code : Z) := Nat.eqb n 15 && (Z.land op 0x00FF =? code) in
  opcode s' = op /\
  delay s' = (if fx 0x15 then reg s (op_X op) else delay s) /\
  sound s' = (if fx 0x18 then reg s (op_X op) else sound s).
Proof.
  intros Hn H op fx.
  assert (Htim : (n <> 15)%nat \/ (Z.land op 0x00FF <> 0x15 /\ Z.land op 0x00FF <> 0x18) ->
                 tim s' = tim s -> opcode s' = op /\
                 delay s' = (if fx 0x15 then reg s (op_X op) else delay s) /\
                 sound s' = (if fx 0x18 then reg s (op_X op) else sound s)).
  { intros Hcase Ht. unfold tim in Ht. injection Ht as Ho Hd Hs.
    unfold fx. destruct Hcase as [Hn15 | [H15 H18]].
    - apply Nat.eqb_neq in Hn15. rewrite Hn15. simpl. auto.
    - apply Z.eqb_neq in H15, H18. rewrite H15, H18, !andb_false_r. auto. }
  do 15 (destruct n as [|n];
    [ apply Htim; [left; lia |]; simpl in H; clear Htim fx;
      first
        [ unfold x0, pop, jump in H; ok_inv H; reflexivity
        | unfold x2, push, jump in H; destruct (_ >? _); ok_inv H; reflexivity
        | unfold xE in H; ok_inv H; if_done
        | unfold xD in H; exact (draw_rows_tim _ _ _ _ _ _ H)
        | unfold x1, x3, x4, x5, x6, x7, x8, x9, xA, xB, xC, jump in H;
          ok_inv H; if_done ]
    | ]).
  destruct n as [|n]; [| lia]. simpl in H. unfold xF in H.
  subst fx op. cbv zeta. cbn [Nat.eqb andb].
  remember (Z.land (opcode s) 0x00FF) as code eqn:Hcode in H |- *.
  clear Htim.
  destruct (Z.eqb_spec code 0x07) as [Hc|Hc]; [try rewrite Hc; ok_inv H; repeat split |].
  destruct (Z.eqb_spec code 0x0A) as [Hc'|Hc']; [try rewrite Hc'; ok_inv H; repeat split |].
  destruct (Z.eqb_spec code 0x15) as [Hc2|Hc2]; [try rewrite Hc2; ok_inv H; repeat split |].
  destruct (Z.eqb_spec code 0x18) as [Hc3|Hc3]; [try rewrite Hc3; ok_inv H; repeat split |].
  try rewrite (proj2 (Z.eqb_neq _ _) Hc2); try rewrite (proj2 (Z.eqb_neq _ _) Hc3).
  assert (Ht : tim s' = tim s).
  { destruct (code =? 0x1E); [ok_inv H; reflexivity |].
    destruct (code =? 0x29); [ok_inv H; reflexivity |].
    destruct (code =? 0x33); [exact (convert_tim _ _ H) |].
    destruct (code =? 0x55); [exact (store_registers_tim _ _ _ _ _ H) |].
    destruct (code =? 0x65); [exact (load_registers_tim _ _ _ _ _ H) |].
    discriminate H. }
  unfold tim in Ht. injection Ht as Ho Hd Hs. auto.
Qed.

(** ** Timers across a step *)

Lemma nat_eqb_15 (z : Z) : 0 <= z -> Nat.eqb (Z.to_nat z) 15 = (z =? 15).
Proof.
  intros Hz. destruct (Nat.eqb_spec (Z.to_nat z) 15); destruct (Z.eqb_spec z 15); auto; lia.
Qed.

Lemma wf_reg_range (s : chip8) (i : Z) : wf s -> 0 <= reg s i < 256.
Proof.
  intros (_ & _ & _ & _ & _ & _ & _ & _ & _ & _ & _ & HV & _). unfold reg.
  destruct (V s !! Z.to_nat i) as [v|] eqn:E; simpl; [| lia].
  exact (Forall_lookup_1 _ _ _ _ HV E).
Qed.

Lemma timer_dec_nonneg (d : Z) : 0 <= d -> 0 <= timer_dec d.
Proof. unfold timer_dec. destruct (Z.gtb_spec d 0); lia. Qed.

(** C9 counterexample: F015 with V0 = 5 and the delay timer at 0. After the
    step the delay timer is 4: it was 0 before the step and is not 0 after. *)
Lemma set_delay_then_decrement :
  delay ex_set_delay = 0 /\
  match chip8_clock 0 ex_set_delay with
  | Ok s' => delay s' = 4
  | Fault _ => False
  end.
Proof. split; vm_compute; reflexivity. Qed.

(** C9 (amended): in a non-faulting step each timer goes through one
    "Timers" block: it loses 1 if it is positive and stays put at 0. The
    value that block starts from is the timer before the step, except that
    when the executed instruction is FX15 (delay) or FX18 (sound) it is VX,
    the value the instruction has just stored. Neither timer goes below 0
    from a well-formed state. *)
Theorem chip8_clock_timers (rnd : Z) (s s' : chip8) :
  wf s -> chip8_clock rnd s = Ok s' ->
  let op := opcode s' in
  let fx (code : Z) :=
    (Z.shiftr (Z.land op 0xF000) 12 =? 15) && (Z.land op 0x00FF =? code) in
  delay s' = timer_dec (if fx 0x15 then reg s (op_X op) else delay s) /\
  sound s' = timer_dec (if fx 0x18 then reg s (op_X op) else sound s) /\
  0 <= delay s' /\ 0 <= sound s'.
Proof.
  intros Hwf H op fx.
  assert (Hd0 : 0 <= delay s) by (unfold wf in Hwf; lia).
  assert (Hs0 : 0 <= sound s) by (unfold wf in Hwf; lia).
  unfold chip8_clock in H.
  destruct (mem_read s (pc s)) as [hi|] eqn:E1; [| discriminate H]. cbn [res_bind] in H.
  destruct (mem_read s (pc s + 1)) as [lo|] eqn:E2; [| discriminate H]. cbn [res_bind] in H.
  set (s2 := set_pc (set_opcode s (Z.lor (Z.shiftl hi 8) lo mod 65536))
                    ((pc (set_opcode s (Z.lor (Z.shiftl hi 8) lo mod 65536)) + 2) mod 65536)) in H.
  set (nib := Z.shiftr (Z.land (opcode s2) 0xF000) 12) in H.
  assert (Hnib : 0 <= nib < 16).
  { unfold nib. rewrite top_nibble_spec. apply Z.mod_pos_bound. lia. }
  destruct (nth (Z.to_nat nib) (OPS rnd) nop s2) as [s3|] eqn:E3; [| discriminate H].
  cbn [res_bind] in H. injection H as <-.
  destruct (OPS_tim rnd (Z.to_nat nib) s2 s3 ltac:(lia) E3) as (Ho & Hd & Hs).
  cbv zeta in Hd, Hs.
  rewrite nat_eqb_15 in Hd, Hs by lia.
  destruct (decrement_timers_frame s3) as (Ho' & _).
  subst fx op. rewrite Ho', Ho.
  rewrite decrement_timers_delay, decrement_timers_sound, Hd, Hs.
  fold (timer_dec (if (nib =? 15) && (Z.land (opcode s2) 0x00FF =? 0x15)
                   then reg s2 (op_X (opcode s2)) else delay s2)).
  fold (timer_dec (if (nib =? 15) && (Z.land (opcode s2) 0x00FF =? 0x18)
                   then reg s2 (op_X (opcode s2)) else sound s2)).
  assert (Hr : forall i, reg s2 i = reg s i) by reflexivity.
  rewrite !Hr. change (delay s2) with (delay s). change (sound s2) with (sound s).
  unfold nib. split; [reflexivity |]. split; [reflexivity |].
  split; apply timer_dec_nonneg;
    match goal with |- context [if ?c then _ else _] => destruct c end;
    first [apply wf_reg_range; exact Hwf | assumption].
Qed.

Lemma chip8_clock_timers_witness :
  wf ex_set_delay /\
  match chip8_clock 0 ex_set_delay with
  | Ok s' =>
      let op := opcode s' in
      let fx (code : Z) :=
        (Z.shiftr (Z.land op 0xF000) 12 =? 15) && (Z.land op 0x00FF =? code) in
      delay s' = timer_dec (if fx 0x15 then reg ex_set_delay (op_X op) else delay ex_set_delay) /\
      sound s' = timer_dec (if fx 0x18 then reg ex_set_delay (op_X op) else sound ex_set_delay) /\
      0 <= delay s' /\ 0 <= sound s'
  | Fault _ => False
  end.
Proof.
  assert (Hwf : wf ex_set_delay) by (apply (bool_decide_unpack _); vm_compute; reflexivity).
  split; [exact Hwf |].
  destruct (chip8_clock 0 ex_set_delay) as [s'|] eqn:E.
  - exact (chip8_clock_timers 0 ex_set_delay s' Hwf E).
  - vm_compute in E. discriminate E.
Defined.

(** ** Memory accesses through the index register *)

Section MemoryAccess.
Variable s : chip8.
Hypothesis Hlen : length (memory s) = 4096%nat.

Lemma mem_read_in (a : Z) : 0 <= a < 4096 -> exists b, mem_read s a = Ok b.
Proof.
  intros Ha. unfold mem_read.
  destruct (lookup_lt_is_Some_2 (memory s) (Z.to_nat a)) as [b Hb]; [lia |].
  rewrite Hb. eauto.
Qed.

Lemma mem_read_out (a : Z) : 4096 <= a -> mem_read s a = Fault (OutOfBounds a).
Proof.
  intros Ha. unfold mem_read. rewrite lookup_ge_None_2 by lia. reflexivity.
Qed.

Lemma mem_write_in (a v : Z) : 0 <= a < 4096 ->
  exists s', mem_write s a v = Ok s' /\ length (memory s') = 4096%nat /\
             index s' = index s /\ opcode s' = opcode s /\ V s' = V s.
Proof.
  intros Ha. unfold mem_write.
  destruct (lookup_lt_is_Some_2 (memory s) (Z.to_nat a)) as [b Hb]; [lia |].
  rewrite Hb. eexists; split; [reflexivity |]. simpl.
  rewrite length_insert. auto.
Qed.

Lemma mem_write_out (a v : Z) : 4096 <= a -> mem_write s a v = Fault (OutOfBounds a).
Proof.
  intros Ha. unfold mem_write. rewrite lookup_ge_None_2 by lia. reflexivity.
Qed.
End MemoryAccess.

Lemma store_registers_ok (ii : Z) (fuel : nat) : forall (i : Z) (s : chip8),
  length (memory s) = 4096%nat -> 0 <= ii + i ->
  (exists s', store_registers ii i fuel s = Ok s') <->
  (fuel = 0%nat \/ ii + i + Z.of_nat fuel <= 4096).
Proof.
  induction fuel as [|fuel IH]; intros i s Hlen Hi; simpl.
  - split; eauto.
  - destruct (Z_lt_ge_dec (ii + i) 4096) as [Hin|Hout].
    + destruct (mem_write_in s Hlen (ii + i) (reg s i) ltac:(lia)) as (s1 & E & Hlen1 & _).
      rewrite E. cbn [res_bind]. rewrite (IH (i + 1) s1 Hlen1) by lia. lia.
    + rewrite mem_write_out by lia. cbn [res_bind].
      split; [intros [? Hf]; discriminate Hf | lia].
Qed.

Lemma load_registers_ok (ii : Z) (fuel : nat) : forall (i : Z) (s : chip8),
  length (memory s) = 4096%nat -> 0 <= ii + i ->
  (exists s', load_registers ii i fuel s = Ok s') <->
  (fuel = 0%nat \/ ii + i + Z.of_nat fuel <= 4096).
Proof.
  induction fuel as [|fuel IH]; intros i s Hlen Hi; simpl.
  - split; eauto.
  - destruct (Z_lt_ge_dec (ii + i) 4096) as [Hin|Hout].
    + destruct (mem_read_in s Hlen (ii + i) ltac:(lia)) as (b & E).
      rewrite E. cbn [res_bind]. rewrite (IH (i + 1) (set_reg s i b) Hlen) by lia. lia.
    + rewrite mem_read_out by lia. cbn [res_bind].
      split; [intros [? Hf]; discriminate Hf | lia].
Qed.

Lemma convert_ok (s : chip8) :
  length (memory s) = 4096%nat -> 0 <= index s ->
  (exists s', convert_binary_to_decimal_and_load s = Ok s') <-> index s + 2 < 4096.
Proof.
  intros Hlen Hi. unfold convert_binary_to_decimal_and_load.
  destruct (Z_lt_ge_dec (index s + 2) 4096) as [Hin|Hout].
  - split; [lia | intros _].
    destruct (mem_write_in s Hlen (index s + 0) (reg s (op_X (opcode s)) / 100 mod 10)
                ltac:(lia)) as (s1 & E1 & Hl1 & Hi1 & _).
    rewrite E1. cbn [res_bind].
    destruct (mem_write_in s1 Hl1 (index s1 + 1) (reg s (op_X (opcode s)) / 10 mod 10)
                ltac:(lia)) as (s2 & E2 & Hl2 & Hi2 & _).
    rewrite E2. cbn [res_bind].
    destruct (mem_write_in s2 Hl2 (index s2 + 2) (reg s (op_X (opcode s)) mod 10)
                ltac:(lia)) as (s3 & E3 & _).
    rewrite E3. eauto.
  - split; [| lia]. intros [s' Hs'].
    destruct (Z_lt_ge_dec (index s + 0) 4096) as [H0|H0];
      [| rewrite mem_write_out in Hs' by lia; discriminate Hs'].
    destruct (mem_write_in s Hlen (index s + 0) (reg s (op_X (opcode s)) / 100 mod 10)
                ltac:(lia)) as (s1 & E1 & Hl1 & Hi1 & _).
    rewrite E1 in Hs'. cbn [res_bind] in Hs'.
    destruct (Z_lt_ge_dec (index s1 + 1) 4096) as [H1|H1];
      [| rewrite mem_write_out in Hs' by lia; discriminate Hs'].
    destruct (mem_write_in s1 Hl1 (index s1 + 1) (reg s (op_X (opcode s)) / 10 mod 10)
                ltac:(lia)) as (s2 & E2 & Hl2 & Hi2 & _).
    rewrite E2 in Hs'. cbn [res_bind] in Hs'.
    rewrite mem_write_out in Hs' by lia. discriminate Hs'.
Qed.

Lemma draw_pixel_mem (X Y row col b : Z) (s : chip8) :
  memory (draw_pixel X Y row col b s) = memory s /\
  index (draw_pixel X Y row col b s) = index s.
Proof. unfold draw_pixel. destruct (_ && _); [| destruct (_ && _)]; auto. Qed.

Lemma draw_cols_mem (X Y row b : Z) (fuel : nat) : forall (col : Z) (s : chip8),
  memory (draw_cols X Y row b col fuel s) = memory s /\
  index (draw_cols X Y row b col fuel s) = index s.
Proof.
  induction fuel as [|fuel IH]; intros col s; simpl; [auto |].
  destruct (X + col >? 63); [auto |].
  destruct (IH (col + 1) (draw_pixel X Y row col b s)) as [-> ->].
  apply draw_pixel_mem.
Qed.

Lemma draw_rows_ok (X Y : Z) (fuel : nat) : forall (row : Z) (s : chip8),
  length (memory s) = 4096%nat -> 0 <= index s -> 0 <= row ->
  index s + row + Z.of_nat fuel <= 4096 ->
  exists s', draw_rows X Y row fuel s = Ok s'.
Proof.
  induction fuel as [|fuel IH]; intros row s Hlen Hi Hrow Hb; cbn [draw_rows]; [eauto |].
  destruct (mem_read_in s Hlen (index s + row) ltac:(lia)) as (b & E).
  rewrite E. cbn [res_bind]. destruct (Y + row >? 31); [eauto |].
  destruct (draw_cols_mem X Y row b 8 0 s) as [Hm Hx].
  apply IH; rewrite ?Hm, ?Hx; lia.
Qed.

(** C2 counterexample: D012 with the index register at 0xFFF reads its second
    sprite row from memory[0x1000], past the end of memory: the draw faults. *)
Lemma draw_past_memory_faults :
  index ex_draw_top = 0xFFF /\ xD ex_draw_top = Fault (OutOfBounds 0x1000).
Proof. split; vm_compute; reflexivity. Qed.

(** C2 (amended): the memory accesses of draw, store-BCD, store-registers and
    load-registers use the unreduced sum index + offset, with no wrap and no
    check. From a well-formed state, FX33 completes iff index + 2 is a memory
    address, FX55 and FX65 complete iff index + X is, and DXYN completes when
    index + N - 1 is; past the end of memory (0xFFF) the access is out of
    bounds (undefined behaviour in the C code) and the step faults. *)
Theorem index_memory_access (s : chip8) :
  wf s ->
  let op := opcode s in
  (Z.land op 0x00FF = 0x33 -> ((exists s', xF s = Ok s') <-> index s + 2 < 4096)) /\
  (Z.land op 0x00FF = 0x55 -> ((exists s', xF s = Ok s') <-> index s + op_X op < 4096)) /\
  (Z.land op 0x00FF = 0x65 -> ((exists s', xF s = Ok s') <-> index s + op_X op < 4096)) /\
  (index s + Z.land op 0x000F <= 4096 -> exists s', xD s = Ok s').
Proof.
  intros Hwf. cbv zeta.
  assert (Hlen : length (memory s) = 4096%nat) by (unfold wf in Hwf; tauto).
  assert (Hi : 0 <= index s) by (unfold wf in Hwf; lia).
  pose proof (op_X_range (opcode s)) as HX.
  split; [| split; [| split]].
  - intros Hc. unfold xF. cbv zeta. rewrite Hc. cbn [Z.eqb Pos.eqb].
    apply convert_ok; assumption.
  - intros Hc. unfold xF. cbv zeta. rewrite Hc. cbn [Z.eqb Pos.eqb].
    rewrite store_registers_ok by (assumption || lia).
    fold (op_X (opcode s)). lia.
  - intros Hc. unfold xF. cbv zeta. rewrite Hc. cbn [Z.eqb Pos.eqb].
    rewrite load_registers_ok by (assumption || lia).
    fold (op_X (opcode s)). lia.
  - intros Hb. unfold xD. cbv zeta.
    assert (HN : 0 <= Z.land (opcode s) 0x000F) by (apply Z.land_nonneg; right; lia).
    apply draw_rows_ok; simpl; rewrite ?length_insert; try assumption; try lia.
Qed.

Lemma index_memory_access_witness :
  wf ex_draw /\
  let op := opcode ex_draw in
  (Z.land op 0x00FF = 0x33 -> ((exists s', xF ex_draw = Ok s') <-> index ex_draw + 2 < 4096)) /\
  (Z.land op 0x00FF = 0x55 -> ((exists s', xF ex_draw = Ok s') <-> index ex_draw + op_X op < 4096)) /\
  (Z.land op 0x00FF = 0x65 -> ((exists s', xF ex_draw = Ok s') <-> index ex_draw + op_X op < 4096)) /\
  (index ex_draw + Z.land op 0x000F <= 4096 -> exists s', xD ex_draw = Ok s').
Proof.
  assert (Hwf : wf ex_draw) by (apply (bool_decide_unpack _); vm_compute; reflexivity).
  split; [exact Hwf | exact (index_memory_access ex_draw Hwf)].
Defined.

(** ** Drawing as a sequence of cell flips *)

Lemma draw_pixel_flip (X Y row col b : Z) (s : chip8) :
  draw_pixel X Y row col b s =
  if sprite_pixel b col then flip_cell (display_pos X Y row col) s else s.
Proof.
  unfold draw_pixel, flip_cell.
  destruct (sprite_pixel b col), (default false _); reflexivity.
Qed.

Lemma draw_cols_flips (X Y row b : Z) (fuel : nat) : forall (col : Z) (s : chip8),
  draw_cols X Y row b col fuel s = flips (col_cells X Y row b col fuel) s.
Proof.
  induction fuel as [|fuel IH]; intros col s; cbn [draw_cols col_cells]; [reflexivity |].
  destruct (X + col >? 63); [reflexivity |].
  rewrite IH, draw_pixel_flip. unfold flips. rewrite fold_left_app.
  destruct (sprite_pixel b col); reflexivity.
Qed.

Lemma flip_cell_frame (p : nat) (s : chip8) :
  memory (flip_cell p s) = memory s /\ index (flip_cell p s) = index s /\
  opcode (flip_cell p s) = opcode s /\ length (V (flip_cell p s)) = length (V s) /\
  (forall i, 0 <= i -> i <> 0xF -> reg (flip_cell p s) i = reg s i).
Proof.
  unfold flip_cell. destruct (default false _).
  - split; [reflexivity | split; [reflexivity | split; [reflexivity | split]]].
    + rewrite length_V_set_reg. reflexivity.
    + intros i Hi Hne. unfold reg, set_reg, set_V; simpl. rewrite list_lookup_insert_ne by lia. reflexivity.
  - repeat split.
Qed.

Lemma flip_cell_display (p : nat) (s : chip8) :
  display (flip_cell p s) = <[p := negb (default false (display s !! p))]> (display s).
Proof. unfold flip_cell. destruct (default false _); reflexivity. Qed.

Lemma flips_frame (L : list nat) : forall s : chip8,
  memory (flips L s) = memory s /\ index (flips L s) = index s /\
  opcode (flips L s) = opcode s /\ length (V (flips L s)) = length (V s) /\
  (forall i, 0 <= i -> i <> 0xF -> reg (flips L s) i = reg s i).
Proof.
  induction L as [|p L IH]; intros s; [repeat split |].
  change (flips (p :: L) s) with (flips L (flip_cell p s)).
  destruct (IH (flip_cell p s)) as (H1 & H2 & H3 & H4 & H5).
  destruct (flip_cell_frame p s) as (G1 & G2 & G3 & G4 & G5).
  rewrite H1, H2, H3, H4, G1, G2, G3, G4. repeat split.
  intros i Hi Hne. rewrite H5, G5 by assumption. reflexivity.
Qed.

Lemma draw_rows_flips (X Y : Z) (fuel : nat) : forall (row : Z) (s s' : chip8),
  draw_rows X Y row fuel s = Ok s' ->
  s' = flips (row_cells (memory s) (index s) X Y row fuel) s.
Proof.
  induction fuel as [|fuel IH]; intros row s s' H; cbn [draw_rows row_cells] in H |- *.
  - injection H as <-. reflexivity.
  - unfold mem_read in H.
    destruct (memory s !! Z.to_nat (index s + row)) as [b|]; cbn [res_bind] in H;
      [| discriminate H].
    destruct (Y + row >? 31); [injection H as <-; reflexivity |].
    rewrite (IH _ _ _ H). destruct (draw_cols_mem X Y row b 8 0 s) as [-> ->].
    rewrite draw_cols_flips. unfold flips. rewrite fold_left_app. reflexivity.
Qed.

Lemma draw_rows_reads (X Y : Z) (fuel : nat) : forall (row : Z) (s s' : chip8),
  draw_rows X Y row fuel s = Ok s' ->
  forall r, row <= r < row + Z.of_nat fuel -> Y + r <= 31 ->
  is_Some (memory s !! Z.to_nat (index s + r)).
Proof.
  induction fuel as [|fuel IH]; intros row s s' H r Hr HY; [lia |].
  cbn [draw_rows] in H. unfold mem_read in H.
  destruct (memory s !! Z.to_nat (index s + row)) as [b|] eqn:E; cbn [res_bind] in H;
    [| discriminate H].
  destruct (Z.eq_dec r row) as [->|Hne]; [rewrite E; eauto |].
  destruct (Z.gtb_spec (Y + row) 31); [lia |].
  destruct (draw_cols_mem X Y row b 8 0 s) as [Hm Hx].
  rewrite <- Hm, <- Hx. apply (IH (row + 1) _ s' H); lia.
Qed.

Lemma draw_rows_ok_transfer (X Y : Z) (fuel : nat) : forall (row : Z) (s t s' : chip8),
  memory t = memory s -> index t = index s ->
  draw_rows X Y row fuel s = Ok s' -> exists t', draw_rows X Y row fuel t = Ok t'.
Proof.
  induction fuel as [|fuel IH]; intros row s t s' Hm Hx H;
    cbn [draw_rows] in H |- *; [eauto |].
  unfold mem_read in H |- *. rewrite Hm, Hx.
  destruct (memory s !! Z.to_nat (index s + row)) as [b|]; cbn [res_bind] in H |- *;
    [| discriminate H].
  destruct (Y + row >? 31); [eauto |].
  destruct (draw_cols_mem X Y row b 8 0 s) as [Gm Gx].
  destruct (draw_cols_mem X Y row b 8 0 t) as [Tm Tx].
  apply (IH (row + 1) (draw_cols X Y row b 0 8 s) (draw_cols X Y row b 0 8 t) s'); [congruence | congruence | exact H].
Qed.

Lemma flips_display (L : list nat) : forall s : chip8, NoDup L ->
  forall p, display (flips L s) !! p =
    if bool_decide (p ∈ L) then negb <$> display s !! p else display s !! p.
Proof.
  induction L as [|a L IH]; intros s HL p.
  - case_bool_decide as Hp; [apply elem_of_nil in Hp; contradiction | reflexivity].
  - inversion HL as [|? ? Ha HL0]; subst; clear HL; rename HL0 into HL.
    change (flips (a :: L) s) with (flips L (flip_cell a s)).
    rewrite (IH _ HL), flip_cell_display.
    case_bool_decide as HpL; case_bool_decide as HpaL.
    + assert (a <> p) by (intros ->; contradiction).
      rewrite list_lookup_insert_ne by assumption. reflexivity.
    + exfalso. apply HpaL, elem_of_cons. right. exact HpL.
    + apply elem_of_cons in HpaL as [<-|HpaL]; [| contradiction].
      destruct (display s !! p) as [d|] eqn:E.
      * rewrite list_lookup_insert_eq by (apply lookup_lt_Some in E; exact E).
        reflexivity.
      * rewrite list_insert_ge by (apply lookup_ge_None_1; exact E). exact E.
    + assert (a <> p) by (intros ->; apply HpaL, elem_of_cons; left; reflexivity).
      rewrite list_lookup_insert_ne by assumption. reflexivity.
Qed.

Lemma existsb_ext_elem {A} (f g : A -> bool) (L : list A) :
  (forall x, x ∈ L -> f x = g x) -> existsb f L = existsb g L.
Proof.
  induction L as [|x L IH]; intros H; [reflexivity |]. cbn [existsb].
  rewrite (H x) by (apply elem_of_cons; left; reflexivity).
  rewrite IH; [reflexivity |]. intros y Hy. apply H, elem_of_cons. right. exact Hy.
Qed.

Lemma flips_VF (L : list nat) : forall s : chip8, length (V s) = 16%nat -> NoDup L ->
  reg (flips L s) 0xF =
    if existsb (fun p => default false (display s !! p)) L then 1 else reg s 0xF.
Proof.
  induction L as [|a L IH]; intros s Hlen HL; [reflexivity |].
  inversion HL as [|? ? Ha HL0]; subst; clear HL; rename HL0 into HL.
  change (flips (a :: L) s) with (flips L (flip_cell a s)).
  destruct (flip_cell_frame a s) as (_ & _ & _ & Hl & _).
  rewrite IH by (congruence || exact HL).
  assert (Hex : existsb (fun p => default false (display (flip_cell a s) !! p)) L =
                existsb (fun p => default false (display s !! p)) L).
  { apply existsb_ext_elem. intros x Hx. rewrite flip_cell_display.
    assert (a <> x) by (intros ->; contradiction).
    rewrite list_lookup_insert_ne by assumption. reflexivity. }
  rewrite Hex. cbn [existsb]. unfold flip_cell.
  destruct (default false (display s !! a)); cbn [orb].
  - rewrite reg_set_reg_eq by (exact Hlen || lia).
    clear Hex. destruct (existsb _ L); reflexivity.
  - reflexivity.
Qed.

Lemma col_cells_elem (X Y row b : Z) (fuel : nat) : forall (col : Z) (p : nat),
  p ∈ col_cells X Y row b col fuel <->
  exists c, col <= c < col + Z.of_nat fuel /\ X + c <= 63 /\
            sprite_pixel b c = true /\ p = display_pos X Y row c.
Proof.
  induction fuel as [|fuel IH]; intros col p; cbn [col_cells].
  - split; [intros Hp; apply elem_of_nil in Hp; contradiction | intros (c & Hc & _); lia].
  - destruct (Z.gtb_spec (X + col) 63) as [Hgt|Hle].
    + split; [intros Hp; apply elem_of_nil in Hp; contradiction |].
      intros (c & Hc & Hx & _). lia.
    + rewrite elem_of_app, IH. split.
      * intros [Hp | (c & Hc & Hx & Hb & ->)].
        -- destruct (sprite_pixel b col) eqn:Eb; [| apply elem_of_nil in Hp; contradiction].
           apply list_elem_of_singleton in Hp as ->.
           exists col. repeat split; auto; lia.
        -- exists c. repeat split; auto; lia.
      * intros (c & Hc & Hx & Hb & ->).
        destruct (Z.eq_dec c col) as [->|Hne].
        -- left. rewrite Hb. apply list_elem_of_singleton. reflexivity.
        -- right. exists c. repeat split; auto; lia.
Qed.

Lemma row_cells_elem (mem : list Z) (idx X Y : Z) (fuel : nat) : forall (row : Z) (p : nat),
  (forall r, row <= r < row + Z.of_nat fuel -> Y + r <= 31 ->
             is_Some (mem !! Z.to_nat (idx + r))) ->
  p ∈ row_cells mem idx X Y row fuel <->
  exists r c b, row <= r < row + Z.of_nat fuel /\ 0 <= c < 8 /\ Y + r <= 31 /\
    X + c <= 63 /\ mem !! Z.to_nat (idx + r) = Some b /\ sprite_pixel b c = true /\
    p = display_pos X Y r c.
Proof.
  induction fuel as [|fuel IH]; intros row p Hread; cbn [row_cells].
  - split; [intros Hp; apply elem_of_nil in Hp; contradiction |].
    intros (r & c & b & Hr & _). lia.
  - destruct (mem !! Z.to_nat (idx + row)) as [b0|] eqn:E.
    + destruct (Z.gtb_spec (Y + row) 31) as [Hgt|Hle].
      * split; [intros Hp; apply elem_of_nil in Hp; contradiction |].
        intros (r & c & b & Hr & Hc & HY & _). lia.
      * rewrite elem_of_app, col_cells_elem, IH
          by (intros r Hr HY; apply Hread; lia).
        split.
        -- intros [(c & Hc & Hx & Hb & ->) | (r & c & b & Hr & Hc & HY & Hx & Hm & Hb & ->)].
           ++ exists row, c, b0. repeat split; auto; lia.
           ++ exists r, c, b. repeat split; auto; lia.
        -- intros (r & c & b & Hr & Hc & HY & Hx & Hm & Hb & ->).
           destruct (Z.eq_dec r row) as [->|Hne].
           ++ left. rewrite E in Hm. injection Hm as <-.
              exists c. repeat split; auto; lia.
           ++ right. exists r, c, b. repeat split; auto; lia.
    + split; [intros Hp; apply elem_of_nil in Hp; contradiction |].
      intros (r & c & b & Hr & Hc & HY & _).
      destruct (Hread row ltac:(lia) ltac:(lia)) as [? E']. congruence.
Qed.

Lemma display_pos_Z (X Y row col : Z) : 0 <= X + col -> 0 <= Y + row ->
  Z.of_nat (display_pos X Y row col) = X + col + (Y + row) * 64.
Proof. intros. unfold display_pos. rewrite Z2Nat.id by lia. reflexivity. Qed.

Lemma col_cells_NoDup (X Y row b : Z) (fuel : nat) : forall col : Z,
  0 <= X -> 0 <= Y + row -> 0 <= col -> NoDup (col_cells X Y row b col fuel).
Proof.
  induction fuel as [|fuel IH]; intros col HX HY Hc; cbn [col_cells]; [constructor |].
  destruct (Z.gtb_spec (X + col) 63) as [Hg|Hg]; [constructor |].
  apply list.NoDup_app. split; [| split].
  - destruct (sprite_pixel b col); [apply NoDup_singleton | constructor].
  - intros p Hp Hp'. destruct (sprite_pixel b col); [| apply elem_of_nil in Hp; contradiction].
    apply list_elem_of_singleton in Hp as ->.
    apply col_cells_elem in Hp' as (c & Hc' & Hx & _ & Heq).
    apply (f_equal Z.of_nat) in Heq. rewrite !display_pos_Z in Heq by lia. lia.
  - apply IH; lia.
Qed.

Lemma row_cells_range (mem : list Z) (idx X Y : Z) (fuel : nat) : forall (row : Z) (p : nat),
  0 <= X -> 0 <= Y + row -> p ∈ row_cells mem idx X Y row fuel ->
  (Y + row) * 64 <= Z.of_nat p.
Proof.
  induction fuel as [|fuel IH]; intros row p HX HY Hp; cbn [row_cells] in Hp.
  - apply elem_of_nil in Hp. contradiction.
  - destruct (mem !! Z.to_nat (idx + row)) as [b|]; [| apply elem_of_nil in Hp; contradiction].
    destruct (Y + row >? 31); [apply elem_of_nil in Hp; contradiction |].
    apply elem_of_app in Hp as [Hp|Hp].
    + apply col_cells_elem in Hp as (c & Hc & Hx & _ & ->).
      rewrite display_pos_Z by lia. lia.
    + apply IH in Hp; lia.
Qed.

Lemma row_cells_NoDup (mem : list Z) (idx X Y : Z) (fuel : nat) : forall row : Z,
  0 <= X -> 0 <= Y + row -> NoDup (row_cells mem idx X Y row fuel).
Proof.
  induction fuel as [|fuel IH]; intros row HX HY; cbn [row_cells]; [constructor |].
  destruct (mem !! Z.to_nat (idx + row)) as [b|]; [| constructor].
  destruct (Y + row >? 31); [constructor |].
  apply list.NoDup_app. split; [apply col_cells_NoDup; lia | split; [| apply IH; lia]].
  intros p Hp Hp'.
  apply col_cells_elem in Hp as (c & Hc & Hx & _ & ->).
  apply row_cells_range in Hp'; [| lia | lia].
  rewrite display_pos_Z in Hp' by lia. lia.
Qed.

(** C4 counterexample: DF01 with VF = 8, V0 = 0 and index 0 (font byte 0xF0).
    The first draw reads X = VF = 8, draws at x = 8 and leaves VF = 0 (no
    collision); the second reads X = VF = 0 and draws at x = 0, so the
    display after the two draws is not the one before them. *)
Lemma draw_twice_vf_moves :
  match xD ex_draw_vf with
  | Ok s1 =>
      match xD s1 with
      | Ok s2 => display s2 <> display ex_draw_vf
      | Fault _ => False
      end
  | Fault _ => False
  end.
Proof. vm_compute. intros Heq. discriminate Heq. Qed.

(** C4 (amended): when neither X nor Y is F (so the first draw, which writes
    VF, does not move the sprite), a draw DXYN that completes is followed by
    a second one that completes too; the second draw restores the display
    to its state before the first, and sets VF to 1 iff a visible sprite
    pixel (rows and columns past the bottom and right edges are clipped)
    covers a cell that is on after the first draw, and to 0 otherwise. *)
Theorem draw_twice (s s1 : chip8) :
  wf s -> op_X (opcode s) <> 0xF -> op_Y (opcode s) <> 0xF -> xD s = Ok s1 ->
  let X := reg s (op_X (opcode s)) mod 64 in
  let Y := reg s (op_Y (opcode s)) mod 32 in
  let N := Z.land (opcode s) 0x000F in
  exists s2, xD s1 = Ok s2 /\ display s2 = display s /\
    (reg s2 0xF = 0 \/ reg s2 0xF = 1) /\
    (reg s2 0xF = 1 <->
     exists row col b, 0 <= row < N /\ 0 <= col < 8 /\ Y + row <= 31 /\
       X + col <= 63 /\ memory s !! Z.to_nat (index s + row) = Some b /\
       sprite_pixel b col = true /\
       display s1 !! display_pos X Y row col = Some true).
Proof.
  intros Hwf HXf HYf H1 X Y N.
  assert (HV : length (V s) = 16%nat) by exact (wf_length_V s Hwf).
  pose proof (op_X_range (opcode s)) as HXr. pose proof (op_Y_range (opcode s)) as HYr.
  assert (HX : 0 <= X < 64) by (apply Z.mod_pos_bound; lia).
  assert (HY : 0 <= Y < 32) by (apply Z.mod_pos_bound; lia).
  assert (HN : 0 <= N) by (apply Z.land_nonneg; right; lia).
  set (s0 := set_reg s 0xF 0) in *.
  set (L := row_cells (memory s) (index s) X Y 0 (Z.to_nat N)).
  change (draw_rows X Y 0 (Z.to_nat N) s0 = Ok s1) in H1.
  pose proof (draw_rows_reads X Y _ 0 s0 s1 H1) as Hrd.
  pose proof (draw_rows_flips X Y _ 0 s0 s1 H1) as Hs1.
  change (row_cells (memory s0) (index s0) X Y 0 (Z.to_nat N)) with L in Hs1.
  assert (HND : NoDup L) by (apply row_cells_NoDup; lia).
  destruct (flips_frame L s0) as (Fm & Fx & Fo & Fl & Fr). rewrite <- Hs1 in Fm, Fx, Fo, Fl, Fr.
  assert (R0 : forall i, 0 <= i -> i <> 0xF -> reg s0 i = reg s i).
  { intros i Hi Hne. unfold s0, reg, set_reg, set_V; simpl.
    rewrite list_lookup_insert_ne by lia. reflexivity. }
  set (t := set_reg s1 0xF 0).
  assert (E1 : xD s1 = draw_rows X Y 0 (Z.to_nat N) t).
  { unfold xD. cbv zeta.
    change (Z.shiftr (Z.land (opcode s1) 0x0F00) 8) with (op_X (opcode s1)).
    change (Z.shiftr (Z.land (opcode s1) 0x00F0) 4) with (op_Y (opcode s1)).
    rewrite Fo; change (opcode s0) with (opcode s); rewrite (Fr (op_X (opcode s))), (Fr (op_Y (opcode s))), !R0 by lia.
    reflexivity. }
  assert (Htm : memory t = memory s0) by exact Fm.
  assert (Htx : index t = index s0) by exact Fx.
  destruct (draw_rows_ok_transfer X Y _ 0 s0 t s1 Htm Htx H1) as [s2 H2].
  exists s2. rewrite E1. split; [exact H2 |].
  pose proof (draw_rows_flips X Y _ 0 t s2 H2) as Hs2.
  rewrite Htm, Htx in Hs2.
  change (row_cells (memory s0) (index s0) X Y 0 (Z.to_nat N)) with L in Hs2.
  assert (HtV : length (V t) = 16%nat).
  { unfold t. rewrite length_V_set_reg, Fl. unfold s0. rewrite length_V_set_reg. exact HV. }
  assert (HVF : reg s2 0xF =
                if existsb (fun p => default false (display s1 !! p)) L then 1 else 0).
  { rewrite Hs2, flips_VF by assumption.
    assert (Hl1 : length (V s1) = 16%nat).
    { rewrite Fl. unfold s0. rewrite length_V_set_reg. exact HV. }
    unfold t. rewrite reg_set_reg_eq by (exact Hl1 || lia).
    reflexivity. }
  split; [| split].
  - apply list_eq. intros p.
    rewrite Hs2, flips_display by exact HND.
    change (display t) with (display s1).
    rewrite Hs1, flips_display by exact HND.
    change (display s0) with (display s).
    case_bool_decide; [| reflexivity].
    destruct (display s !! p) as [d|]; [| reflexivity].
    cbn. rewrite negb_involutive. reflexivity.
  - rewrite HVF. destruct (existsb _ L); auto.
  - rewrite HVF. split.
    + intros Hv. destruct (existsb _ L) eqn:Eex; [| discriminate Hv].
      apply existsb_exists in Eex as (p & Hin & Hp).
      apply list_elem_of_In in Hin.
      apply row_cells_elem in Hin as (r & c & b & Hr & Hc & HYr' & Hx & Hm & Hb & ->);
        [| exact Hrd].
      exists r, c, b. repeat split; try lia; try assumption.
      destruct (display s1 !! display_pos X Y r c) as [[]|]; cbn in Hp; congruence.
    + intros (r & c & b & Hr & Hc & HYr' & Hx & Hm & Hb & Hd).
      assert (Eex : existsb (fun p => default false (display s1 !! p)) L = true).
      { apply existsb_exists. exists (display_pos X Y r c). split.
        - apply list_elem_of_In, row_cells_elem; [exact Hrd |].
          exists r, c, b. repeat split; try lia; assumption.
        - rewrite Hd. reflexivity. }
      rewrite Eex. reflexivity.
Qed.

Lemma draw_twice_witness :
  match xD ex_draw with
  | Ok s1 =>
      let s := ex_draw in
      let X := reg s (op_X (opcode s)) mod 64 in
      let Y := reg s (op_Y (opcode s)) mod 32 in
      let N := Z.land (opcode s) 0x000F in
      exists s2, xD s1 = Ok s2 /\ display s2 = display s /\
        (reg s2 0xF = 0 \/ reg s2 0xF = 1) /\
        (reg s2 0xF = 1 <->
         exists row col b, 0 <= row < N /\ 0 <= col < 8 /\ Y + row <= 31 /\
           X + col <= 63 /\ memory s !! Z.to_nat (index s + row) = Some b /\
           sprite_pixel b col = true /\
           display s1 !! display_pos X Y row col = Some true)
  | Fault _ => False
  end.
Proof.
  assert (Hwf : wf ex_draw) by (apply (bool_decide_unpack _); vm_compute; reflexivity).
  destruct (xD ex_draw) as [s1|e] eqn:E; [| vm_compute in E; discriminate E].
  exact (draw_twice ex_draw s1 Hwf
           ltac:(intros Hc; vm_compute in Hc; discriminate Hc)
           ltac:(intros Hc; vm_compute in Hc; discriminate Hc) E).
Defined.
